(** * agentslack: message visibility and read-state tracking

    A shallow embedding of [src/agentslack/api.py] (class [Server]): the tool
    dispatcher [call_tool], the read-state helpers [only_show_new_messages]
    and [_update_agent_read_messages], and the channel membership resolver
    [update_channels], with the properties stated about them. *)

From Stdlib Require Import ZArith Lia Ascii.
From stdpp Require Import base option list strings gmap.

Open Scope Z_scope.

(** ** Strings *)

Module PyStr.

(** [sep.join(ls)] *)
Definition join (sep : string) (ls : list string) : string :=
  String.concat sep ls.

(** [s.split('.')[0]]: everything before the first dot (all of [s] when it
    has none). *)
Fixpoint before_dot (s : string) : string :=
  match s with
  | EmptyString => EmptyString
  | String c r => if Ascii.eqb c "."%char then EmptyString
                  else String c (before_dot r)
  end.

(** What follows the first dot ([None] when there is none). *)
Fixpoint after_dot (s : string) : option string :=
  match s with
  | EmptyString => None
  | String c r => if Ascii.eqb c "."%char then Some r else after_dot r
  end.

Definition digit (c : ascii) : option Z :=
  let n := Z.of_nat (nat_of_ascii c) in
  if (48 <=? n) && (n <=? 57) then Some (n - 48) else None.

(** Value of a run of decimal digits, most significant first. *)
Fixpoint digits_from (acc : Z) (s : string) : option Z :=
  match s with
  | EmptyString => Some acc
  | String c r =>
      match digit c with
      | Some d => digits_from (10 * acc + d) r
      | None => None
      end
  end.

(** The first six digits of a fraction, as a number of microseconds. *)
Fixpoint micros_from (k : nat) (acc : Z) (s : string) : option Z :=
  match k with
  | O => match digits_from 0 s with Some _ => Some acc | None => None end
  | S k' =>
      match s with
      | EmptyString => Some (acc * 10 ^ Z.of_nat k)
      | String c r =>
          match digit c with
          | Some d => micros_from k' (10 * acc + d) r
          | None => None
          end
      end
  end.

(** [datetime.fromtimestamp(float(s)).timestamp()] as a whole number of
    microseconds, for the unsigned decimal notation Slack uses for [ts]
    ("1700000000.000200"). [None] stands for the [ValueError] of [float(s)].
    The function is exact on the strings of [slack_ts] below. Outside them
    Python rounds a longer fraction where this function cuts it, refuses
    times past the year 9999, and reads notations ("1e3", signs, blanks)
    that this function refuses; every property below that depends on a time
    is stated for [slack_ts] strings. *)
Definition timestamp_of (s : string) : option Z :=
  match s with
  | EmptyString => None
  | "." => None
  | _ =>
      match digits_from 0 (before_dot s) with
      | None => None
      | Some secs =>
          match after_dot s with
          | None => Some (secs * 1000000)
          | Some frac =>
              match micros_from 6 0 frac with
              | Some us => Some (secs * 1000000 + us)
              | None => None
              end
          end
      end
  end.

(** Whether every character of [s] is a decimal digit. *)
Fixpoint all_digits (s : string) : bool :=
  match s with
  | EmptyString => true
  | String c r => match digit c with Some _ => all_digits r | None => false end
  end.

(** Slack's notation for [ts]: the seconds since the epoch in decimal
    digits, a dot, and six digits of microseconds, for a time before 2^32
    seconds. A double below 2^32 is within a quarter of a microsecond of
    such a decimal, [fromtimestamp] rounds it to that microsecond and
    [timestamp()] gives it back: on these strings [timestamp_of] is the
    code's value. *)
Definition slack_ts (s : string) : bool :=
  match after_dot s, digits_from 0 (before_dot s) with
  | Some frac, Some secs =>
      negb (String.eqb (before_dot s) EmptyString) && (secs <? 4294967296)
      && all_digits frac && (String.length frac =? 6)%nat
  | _, _ => false
  end.

(** Whether every character of [s] is an ASCII character. *)
Fixpoint is_ascii (s : string) : bool :=
  match s with
  | EmptyString => true
  | String c r => (nat_of_ascii c <? 128)%nat && is_ascii r
  end.

Definition lower_ascii (c : ascii) : ascii :=
  let n := nat_of_ascii c in
  if (65 <=? n)%nat && (n <=? 90)%nat then ascii_of_nat (n + 32) else c.

(** [s.lower()] on ASCII text ([is_ascii]), where [str.lower] changes the
    letters A to Z and nothing else. The properties of [create_channel] that
    depend on the lowered name are stated for ASCII names. *)
Fixpoint lower (s : string) : string :=
  match s with
  | EmptyString => EmptyString
  | String c r => String (lower_ascii c) (lower r)
  end.

(** Whether [c] occurs in [s]. *)
Fixpoint contains (c : ascii) (s : string) : bool :=
  match s with
  | EmptyString => false
  | String c' r => Ascii.eqb c c' || contains c r
  end.

Definition hex_digit (n : nat) : ascii :=
  List.nth n ["0"; "1"; "2"; "3"; "4"; "5"; "6"; "7"; "8"; "9";
              "a"; "b"; "c"; "d"; "e"; "f"]%char "0"%char.

(** One character of [repr(s)] between quotes [q]: the backslash and the
    quote are escaped with a backslash, tab, newline and carriage return are
    written \t, \n and \r, any other control character \xNN. *)
Definition repr_char (q c : ascii) : string :=
  let n := nat_of_ascii c in
  if Ascii.eqb c "\"%char || Ascii.eqb c q then
    String "\"%char (String c EmptyString)
  else if (n =? 9)%nat then "\t"
  else if (n =? 10)%nat then "\n"
  else if (n =? 13)%nat then "\r"
  else if (n <? 32)%nat || (n =? 127)%nat then
    String "\"%char
      (String "x"%char
         (String (hex_digit (n / 16)%nat)
            (String (hex_digit (n mod 16)%nat) EmptyString)))
  else String c EmptyString.

Fixpoint repr_chars (q : ascii) (s : string) : string :=
  match s with
  | EmptyString => EmptyString
  | String c r => repr_char q c +:+ repr_chars q r
  end.

(** [repr(s)] for a string of ASCII characters ([is_ascii]): between single
    quotes, or between double quotes when [s] holds a single quote and no
    double quote. *)
Definition repr (s : string) : string :=
  let q := if contains "'"%char s && negb (contains "034"%char s)
           then "034"%char else "'"%char in
  String q (repr_chars q s) +:+ String q EmptyString.

(** [str(ls)] for a list of strings: the [repr] of each, between brackets. *)
Definition repr_list (ls : list string) : string :=
  "[" +:+ join ", " (map repr ls) +:+ "]".

End PyStr.

(** ** Data model

    The dataclasses of [agentslack/types.py], with the fields [api.py] passes
    to their constructors and reads from them. *)

(** [Message.timestamp] holds what the call site puts there: the float of
    [time.time()] at a send (kept in microseconds), the string [ts] of the
    backend at a read. A Python float never equals a Python string. *)
Inductive Timestamp :=
| Float (t : Z)
| Str (s : string).

#[global] Instance Timestamp_eq_dec : EqDecision Timestamp.
Proof. solve_decision. Defined.

Module Message.
Record t := mk {
  message : string;
  channel_id : string;
  user_id : string;
  timestamp : Timestamp;
  agent_name : option string   (* [None] is Python's None *)
}.
End Message.

(** Modelled from the spec: the equality of [Message], declared in
    [types.py]. "Two messages are considered identical (for dedup purposes)
    iff all attributes match exactly": the equality of a dataclass, field
    by field. It is what [in] and [not in] test on lists of messages. *)
#[global] Instance Message_eq_dec : EqDecision Message.t.
Proof. solve_decision. Defined.

Module Channel.
Record t := mk { slack_id : string; name : string }.
End Channel.

Module Human.
Record t := mk { name : string; slack_member_id : string }.
End Human.

Module Agent.
(** Modelled from the spec: the type of [read_messages], declared in
    [types.py]. "A mapping from channel identity to an ordered sequence of
    previously delivered messages", with "initial state for a channel never
    seen by an agent the empty sequence": a mapping whose missing keys read
    as the empty list. [slack_id] is [agent.slack_app.slack_id];
    [agent.slack_client] is reached through the agent's name, see
    [Slack.t]. *)
Record t := mk {
  agent_name : string;
  world_name : string;
  slack_id : string;
  channels : list Channel.t;
  read_messages : gmap string (list Message.t)
}.

(** The agent's ledger for one channel; empty for a channel never seen. *)
Definition previous_messages (a : t) (channel_id : string) : list Message.t :=
  default [] (read_messages a !! channel_id).

(** [a.read_messages[channel_id].extend([m for m in messages if m not in
    a.read_messages[channel_id]])]: the list to append is built first, against
    the ledger as it is, and then appended in one go. *)
Definition extend_read_messages (a : t) (channel_id : string)
    (messages : list Message.t) : t :=
  let old := previous_messages a channel_id in
  mk (agent_name a) (world_name a) (slack_id a) (channels a)
     (<[channel_id := old ++ filter (λ message, message ∉ old) messages]>
        (read_messages a)).

(** [a.channels = all_channels] *)
Definition set_channels (a : t) (all_channels : list Channel.t) : t :=
  mk (agent_name a) (world_name a) (slack_id a) all_channels (read_messages a).
End Agent.

Module World.
Record t := mk {
  start_datetime : Z;             (* microseconds since the epoch *)
  channels : list Channel.t
}.
End World.


(** ** The Slack client

    The chat backend, as one request sees it. Every agent owns a client
    ([agent.slack_client]); the first argument of each method is the name of
    the agent whose client is called. *)

Module Slack.

(** One element of [response['messages']]. *)
Record RawMessage := mkRaw { text : string; user : string; ts : string }.

(** The result of [read]: [messages] is [response['messages']], [error] is
    [response.get('error')]. *)
Record ReadResponse := mkRead {
  messages : list RawMessage;
  error : option string
}.

Record t := mk {
  (* ids of [check_ongoing_dms()['channels']] *)
  check_ongoing_dms : string → list string;
  (* [(id, name)] of [list_channels()['channels']] *)
  list_channels : string → list (string * string);
  (* [get_channel_members(channel_id)['members']] *)
  get_channel_members : string → string → list string;
  read : string → string → ReadResponse;
  (* [Some id] when [response['ok']], with [id = response['channel']['id']] *)
  open_conversation : string → list string → option string;
  (* [send_messsage(message, target_channel_id)], the response as text *)
  send_messsage : string → string → string → string;
  (* [create_channel(channel_name)['channel']['id']] *)
  create_channel : string → string → string;
  add_user_to_channel : string → string → list string → string;
  (* [export_history(channel_names, limit).items()], on the client of a
     world: per channel id, its [channel_data['messages']] *)
  export_history : string → list string → Z
                   → list (string * list RawMessage)
}.

End Slack.

(** ** Failures

    What a handler can raise: the HTTP errors of [api.py] itself, the
    failures of the registry (sections 4.1 and 6 of the specification), and
    the Python errors the code can run into. *)

Inductive Exception :=
| HTTPException (status_code : Z) (detail : string)
| NotFound (kind name : string)
| ValueError (what : string)
| UnboundLocalError (var : string)
| TypeError (what : string)
| DuplicateEntity (kind name : string).

(** [str(e)], in words of this model: the registry's own wording is not
    reproduced. *)
Definition Exception_str (e : Exception) : string :=
  match e with
  | HTTPException _ detail => detail
  | NotFound kind name => kind +:+ " not found: " +:+ name
  | ValueError what => "could not convert string to float: '" +:+ what +:+ "'"
  | UnboundLocalError var =>
      "local variable '" +:+ var +:+ "' referenced before assignment"
  | TypeError what => what
  | DuplicateEntity kind name => kind +:+ " already exists: " +:+ name
  end.

Inductive Outcome (A : Type) :=
| Ok (a : A)
| Raise (e : Exception).
Arguments Ok {A} a.
Arguments Raise {A} e.

(** ** The registry

    [api.py] reaches every entity through [self.registry], an instance of
    [agentslack.registry.Registry]. What follows is that class as section
    4.1 of the specification describes it and as [api.py] calls it. A lookup
    that finds nothing gives [None]; the helpers of [Server] below turn that
    into the failure "lookups on an unknown name fail with NotFound". *)

Module Registry.

(** Modelled from the spec: the table of agents of [registry.py]. The agents
    in registration order, each found under its own [agent_name] ("lookups
    by agent name"). *)
Fixpoint find_agent (l : list Agent.t) (agent_name : string) : option Agent.t :=
  match l with
  | [] => None
  | a :: l' =>
      if decide (Agent.agent_name a = agent_name) then Some a
      else find_agent l' agent_name
  end.

(** Modelled from the spec: the table of agents of [registry.py]. Puts [a']
    where the agent of that name is. *)
Fixpoint replace_agent (l : list Agent.t) (agent_name : string) (a' : Agent.t)
  : list Agent.t :=
  match l with
  | [] => []
  | a :: l' =>
      if decide (Agent.agent_name a = agent_name) then a' :: l'
      else a :: replace_agent l' agent_name a'
  end.

(** Modelled from the spec: the state of [Registry] in [registry.py]. The
    entity store "holds identity and membership data": worlds by name, the
    agents, the humans, the registered channels by name, and the configured
    always-present identities. *)
Record t := mk {
  worlds : gmap string World.t;
  agents : list Agent.t;
  humans : list Human.t;
  channels : gmap string Channel.t;
  always_add_users : list string
}.

(** Modelled from the spec: [Registry.get_agent], lookup by agent name. *)
Definition get_agent (r : t) (agent_name : string) : option Agent.t :=
  find_agent (agents r) agent_name.

(** Modelled from the spec: [Registry.get_world], lookup by world name. *)
Definition get_world (r : t) (world_name : string) : option World.t :=
  worlds r !! world_name.

(** Modelled from the spec: [Registry.get_channel], lookup by channel name. *)
Definition get_channel (r : t) (channel_name : string) : option Channel.t :=
  channels r !! channel_name.

(** Modelled from the spec: [Registry.get_channel_from_id], the reverse
    lookup from a backend channel id to a channel record, among the
    channels the store holds: the registered channels, then the channel
    lists of the agents. *)
Definition get_channel_from_id (r : t) (channel_id : string)
  : option Channel.t :=
  List.find (λ c, bool_decide (Channel.slack_id c = channel_id))
            ((map_to_list (channels r)).*2
             ++ concat (Agent.channels <$> agents r)).

(** Modelled from the spec: [Registry.get_all_agent_names], "list all agent
    names". *)
Definition get_all_agent_names (r : t) : list string :=
  Agent.agent_name <$> agents r.

(** Modelled from the spec: [Registry.agent_exists], "does agent exist". *)
Definition agent_exists (r : t) (agent_name : string) : bool :=
  bool_decide (agent_name ∈ get_all_agent_names r).

(** Modelled from the spec: [Registry.get_humans], the humans known to the
    store. *)
Definition get_humans (r : t) : list Human.t := humans r.

(** Modelled from the spec: [Registry.get_human_names], "list all human
    names". *)
Definition get_human_names (r : t) : list string :=
  Human.name <$> humans r.

(** Modelled from the spec: [Registry.human_exists], "does human exist". *)
Definition human_exists (r : t) (human_name : string) : bool :=
  bool_decide (human_name ∈ get_human_names r).

(** Modelled from the spec: [Registry.get_human], lookup by human name. *)
Definition get_human (r : t) (human_name : string) : option Human.t :=
  List.find (λ h, bool_decide (Human.name h = human_name)) (humans r).

(** Modelled from the spec: [Registry.get_agent_name_from_id], the "reverse
    lookup from a backend identity handle to a display name", among the
    agents. *)
Definition get_agent_name_from_id (r : t) (id : string) : option string :=
  Agent.agent_name <$> List.find (λ a, bool_decide (Agent.slack_id a = id))
                                 (agents r).

(** Modelled from the spec: [Registry.get_human_name_from_id], the same
    reverse lookup among the humans. *)
Definition get_human_name_from_id (r : t) (id : string) : option string :=
  Human.name <$> List.find (λ h, bool_decide (Human.slack_member_id h = id))
                           (humans r).

(** Modelled from the spec: [Registry.get_world_starttime_of_agent], the
    [start_datetime] of the world the named agent lives in. *)
Definition get_world_starttime_of_agent (r : t) (agent_name : string)
  : option Z :=
  a ← get_agent r agent_name;
  w ← get_world r (Agent.world_name a);
  Some (World.start_datetime w).

(** Modelled from the spec: [Registry.get_always_add_users], the "configured
    set of always-present identities". *)
Definition get_always_add_users (r : t) : list string := always_add_users r.

(** Modelled from the spec: the agent objects of [registry.py]. The object
    returned by [get_agent] is the registry's own, so a write to one of its
    attributes in [api.py] is a write to the registry. *)
Definition set_agent (r : t) (agent_name : string) (a : Agent.t) : t :=
  mk (worlds r) (replace_agent (agents r) agent_name a) (humans r)
     (channels r) (always_add_users r).

(** Modelled from the spec: [Registry.register_world]. A new world, started
    [now]; "registering a world with a name that already exists fails with
    DuplicateEntity". *)
Definition register_world (r : t) (world_name : string) (now : Z) : Outcome t :=
  match worlds r !! world_name with
  | Some _ => Raise (DuplicateEntity "world" world_name)
  | None =>
      Ok (mk (<[world_name := World.mk now []]> (worlds r)) (agents r)
             (humans r) (channels r) (always_add_users r))
  end.

(** Modelled from the spec: [Registry.register_agent]. A new agent of a
    registered world, with the Slack identity the registry assigns to it, no
    channels and an empty ledger; "registering an agent with a name that
    already exists fails with DuplicateEntity", and the lookup of an unknown
    world with NotFound. *)
Definition register_agent (r : t) (agent_name world_name slack_id : string)
  : Outcome t :=
  if agent_exists r agent_name then Raise (DuplicateEntity "agent" agent_name)
  else
    match worlds r !! world_name with
    | None => Raise (NotFound "world" world_name)
    | Some _ =>
        Ok (mk (worlds r)
               (agents r ++ [Agent.mk agent_name world_name slack_id [] ∅])
               (humans r) (channels r) (always_add_users r))
    end.

(** Modelled from the spec: [Registry.register_channel]. "Registering a
    channel attaches it to the creating agent's world channel set"; the
    channel is then found by its name. *)
Definition register_channel (r : t) (agent_name channel_name channel_id : string)
  : option t :=
  a ← get_agent r agent_name;
  w ← get_world r (Agent.world_name a);
  let c := Channel.mk channel_id channel_name in
  let w' := World.mk (World.start_datetime w) (World.channels w ++ [c]) in
  Some (mk (<[Agent.world_name a := w']> (worlds r)) (agents r) (humans r)
           (<[channel_name := c]> (channels r)) (always_add_users r)).

End Registry.

(** ** Server state, exceptions, and the monad of a request *)

(** The document [_export_agent_logs] writes for an agent: the ledger, and
    under ['channel_metadata'] the channel record of every ledger key. *)
Record LogDocument := mkLog {
  log_messages : gmap string (list Message.t);
  log_channel_metadata : gmap string Channel.t
}.

(** [logs] is the durable log sink: under the directory of a world start,
    one document per agent, rewritten by [_export_agent_logs]. Writing the
    configuration files of the directory is the sink's own business. *)
Record Server := mkServer {
  registry : Registry.t;
  logs : gmap (Z * string) LogDocument
}.

(** A request handler: runs on the server state, returns or raises, and
    leaves the state as it was at that point. *)
Definition M (A : Type) : Type := Server → Outcome A * Server.

#[global] Instance M_ret : MRet M := λ A a st, (Ok a, st).

#[global] Instance M_bind : MBind M := λ A B f m st,
  match m st with
  | (Ok a, st') => f a st'
  | (Raise e, st') => (Raise e, st')
  end.

#[global] Instance M_fmap : FMap M := λ A B f m st,
  match m st with
  | (Ok a, st') => (Ok (f a), st')
  | (Raise e, st') => (Raise e, st')
  end.

Definition raise {A} (e : Exception) : M A := λ st, (Raise e, st).

(** [try: m except Exception as e: raise HTTPException(400, str(e))] *)
Definition or_bad_request {A} (m : M A) : M A := λ st,
  match m st with
  | (Ok a, st') => (Ok a, st')
  | (Raise e, st') => (Raise (HTTPException 400 (Exception_str e)), st')
  end.

Definition get_registry : M Registry.t := λ st, (Ok (registry st), st).

Definition put_registry (r : Registry.t) : M unit :=
  λ st, (Ok tt, mkServer r (logs st)).

Definition write_log (world_start_datetime : Z) (agent_name : string)
    (doc : LogDocument) : M unit :=
  λ st, (Ok tt, mkServer (registry st)
                  (<[(world_start_datetime, agent_name) := doc]> (logs st))).

(** [x] when the lookup succeeded, the exception otherwise. *)
Definition or_raise {A} (o : option A) (e : Exception) : M A :=
  match o with
  | Some a => mret a
  | None => raise e
  end.

(** A call into the registry that returns or raises. *)
Definition lift {A} (o : Outcome A) : M A := λ st, (o, st).

(** [[x for x in l if p(x)]] where [p] may raise. *)
Fixpoint filter_M {A} (p : A → M bool) (l : list A) : M (list A) :=
  match l with
  | [] => mret []
  | x :: l' =>
      b ← p x; ys ← filter_M p l';
      mret (if b : bool then x :: ys else ys)
  end.

(** What a tool call hands back to the caller. *)
Inductive Payload :=
| PText (s : string)
| PMessages (l : list Message.t)
| PNewMessages (l : list (list Message.t))
| PChannels (l : list (string * string))
| PHumans (l : list Human.t)
| PResponse (r : string).

(** ** Helpers of [Server] *)

Definition get_agent (agent_name : string) : M Agent.t :=
  r ← get_registry;
  or_raise (Registry.get_agent r agent_name) (NotFound "agent" agent_name).

Definition get_world (world_name : string) : M World.t :=
  r ← get_registry;
  or_raise (Registry.get_world r world_name) (NotFound "world" world_name).

Definition get_channel (channel_name : string) : M Channel.t :=
  r ← get_registry;
  or_raise (Registry.get_channel r channel_name)
           (NotFound "channel" channel_name).

Definition get_human (human_name : string) : M Human.t :=
  r ← get_registry;
  or_raise (Registry.get_human r human_name) (NotFound "human" human_name).

Definition agent_exists (agent_name : string) : M bool :=
  r ← get_registry; mret (Registry.agent_exists r agent_name).

Definition human_exists (human_name : string) : M bool :=
  r ← get_registry; mret (Registry.human_exists r human_name).

Definition return_agent_doesnt_exist_error (agent_name : string) (sender : bool)
  : M string :=
  r ← get_registry;
  let names := PyStr.repr_list (Registry.get_all_agent_names r) in
  mret (if sender
        then "The sender '" +:+ agent_name +:+
             "' does not exist, here are possible agents: " +:+ names
        else "The agent '" +:+ agent_name +:+
             "' does not exist, here are possible agents: " +:+ names).

Definition return_human_doesnt_exist_error (human_name : string) : M string :=
  r ← get_registry;
  mret ("The human '" +:+ human_name +:+
        "' does not exist, here are possible humans: " +:+
        PyStr.repr_list (Registry.get_human_names r)).

(** [msg not in previous_messages] keeps the order of [messages]. *)
Definition only_show_new_messages (agent_name channel_id : string)
    (messages : list Message.t) : M (list Message.t) :=
  agent ← get_agent agent_name;
  let previous_messages := Agent.previous_messages agent channel_id in
  mret (filter (λ msg, msg ∉ previous_messages) messages).

(** The loop that fills [channel_metadata]: the record
    [get_channel_from_id] finds for each key of [logs_to_save]. A key the
    registry does not know gives [None], the [asdict(None)] of the source. *)
Definition export_channel_metadata (r : Registry.t)
    (logs_to_save : gmap string (list Message.t))
  : option (gmap string Channel.t) :=
  if decide (map_Forall (λ channel_id _,
                           is_Some (Registry.get_channel_from_id r channel_id))
                        logs_to_save)
  then Some (map_imap (λ channel_id _, Registry.get_channel_from_id r channel_id)
                      logs_to_save)
  else None.

(** Writes the agent's document in the log sink, under the start of the
    agent's world. *)
Definition _export_agent_logs (agent : Agent.t) : M unit :=
  world ← get_world (Agent.world_name agent);
  let world_start_datetime := World.start_datetime world in
  agent_obj ← get_agent (Agent.agent_name agent);
  let logs_to_save := Agent.read_messages agent_obj in
  r ← get_registry;
  channel_metadata ←
    or_raise (export_channel_metadata r logs_to_save)
             (TypeError "asdict() should be called on dataclass instances");
  write_log world_start_datetime (Agent.agent_name agent)
            (mkLog logs_to_save channel_metadata).

Definition _update_agent_read_messages (agent_name channel_id : string)
    (messages : list Message.t) : M unit :=
  agent ← get_agent agent_name;
  r ← get_registry;
  put_registry
    (Registry.set_agent r agent_name
       (Agent.extend_read_messages agent channel_id messages));;
  _export_agent_logs agent.

(** *** [update_channels] *)

(** The record built for a DM channel: its members without the always-add
    users, joined by commas, as the name. *)
Definition update_channels_dm_channel (slack : Slack.t) (r : Registry.t)
    (agent_name id : string) : Channel.t :=
  let channel_members := Slack.get_channel_members slack agent_name id in
  let channel_members :=
    filter (λ member, member ∉ Registry.get_always_add_users r)
           channel_members in
  Channel.mk id (PyStr.join "," channel_members).

(** One round of the loop over [ongoing_dms['channels']]; the accumulator is
    [(all_channels, existing_channel_ids)]. *)
Definition update_channels_dm (slack : Slack.t) (r : Registry.t)
    (agent_name : string) (acc : list Channel.t * gset string) (id : string)
  : list Channel.t * gset string :=
  if decide (id ∈ acc.2) then acc
  else (acc.1 ++ [update_channels_dm_channel slack r agent_name id],
        {[id]} ∪ acc.2).

(** One round of the loop over [channels['channels']]. *)
Definition update_channels_named (acc : list Channel.t * gset string)
    (channel : string * string) : list Channel.t * gset string :=
  if decide (channel.1 ∈ acc.2) then acc
  else (acc.1 ++ [Channel.mk channel.1 channel.2], {[channel.1]} ∪ acc.2).

(** [all_channels] when both loops are done. *)
Definition update_channels_all (slack : Slack.t) (r : Registry.t)
    (agent_name : string) : list Channel.t :=
  let ongoing_dms := Slack.check_ongoing_dms slack agent_name in
  let channels := Slack.list_channels slack agent_name in
  let acc := foldl (update_channels_dm slack r agent_name) ([], ∅) ongoing_dms in
  let acc := foldl update_channels_named acc channels in
  acc.1.

Definition update_channels (slack : Slack.t) (agent_name : string) : M unit :=
  agent ← get_agent agent_name;
  r ← get_registry;
  let all_channels := update_channels_all slack r agent_name in
  put_registry
    (Registry.set_agent r agent_name (Agent.set_channels agent all_channels)).

(** *** The branches of [call_tool] *)

(** [datetime.fromtimestamp(float(ts)).timestamp()] *)
Definition timestamp_of (ts : string) : M Z :=
  or_raise (PyStr.timestamp_of ts) (ValueError ts).

Definition not_a_member : string :=
  "You are not a member of this channel, you can't read it.".

(** The sender's display name as [read_channel] and [read_dm] resolve it:
    [get_agent_name_from_id] when [message['user']] is among
    [get_all_agent_names()], [get_human_name_from_id] otherwise. *)
Definition resolve_sender (r : Registry.t) (user : string) : option string :=
  if bool_decide (user ∈ Registry.get_all_agent_names r)
  then Registry.get_agent_name_from_id r user
  else Registry.get_human_name_from_id r user.

(** The [Message(...)] built from a backend record, at each of the three
    call sites. *)
Definition read_channel_message (r : Registry.t) (channel_id : string)
    (message : Slack.RawMessage) : Message.t :=
  Message.mk (Slack.text message) channel_id (Slack.user message)
             (Str (Slack.ts message))
             (resolve_sender r (Slack.user message)).

Definition read_dm_message (r : Registry.t) (channel_id : string)
    (message : Slack.RawMessage) : Message.t :=
  Message.mk (Slack.text message) channel_id (Slack.user message)
             (Str (PyStr.before_dot (Slack.ts message)))
             (resolve_sender r (Slack.user message)).

Definition check_new_messages_message (r : Registry.t) (channel_id : string)
    (message : Slack.RawMessage) : Message.t :=
  Message.mk (Slack.text message) channel_id (Slack.user message)
             (Str (PyStr.before_dot (Slack.ts message)))
             (Registry.get_agent_name_from_id r (Slack.user message)).

Definition send_direct_message (slack : Slack.t) (now : Z)
    (your_name recipient_name message : string) : M Payload :=
  known ← agent_exists recipient_name;
  if negb known then
    human ← human_exists recipient_name;
    if human : bool then
      mret (PText "You are trying to send a message to a human. For that use the send_message_to_human tool.")
    else PText <$> return_agent_doesnt_exist_error recipient_name false
  else
  known ← agent_exists your_name;
  if negb known then PText <$> return_agent_doesnt_exist_error your_name false
  else
  recipient ← get_agent recipient_name;
  let id_of_recipient := Agent.slack_id recipient in
  match Slack.open_conversation slack your_name [id_of_recipient] with
  | None => raise (HTTPException 400 "Failed to open conversation")
  | Some channel_id =>
      let response := Slack.send_messsage slack your_name message channel_id in
      update_channels slack your_name;;
      sender ← get_agent your_name;
      _update_agent_read_messages your_name channel_id
        [Message.mk message channel_id (Agent.slack_id sender) (Float now)
                    (Some your_name)];;
      mret (PResponse response)
  end.

Definition send_message_to_channel (slack : Slack.t) (now : Z)
    (your_name channel_name message : string) : M Payload :=
  known ← agent_exists your_name;
  if negb known then PText <$> return_agent_doesnt_exist_error your_name false
  else
  agent ← get_agent your_name;
  let channel_names := Channel.name <$> Agent.channels agent in
  if bool_decide (channel_name ∉ channel_names) then
    mret (PText ("Sorry this channel doesn't exist, you can create a new channel with the create_channel tool." +:+
                 "Here is a list of all the channels you have access to: " +:+
                 PyStr.repr_list channel_names))
  else
    channel ← get_channel channel_name;
    let channel_id := Channel.slack_id channel in
    let response := Slack.send_messsage slack your_name message channel_id in
    _update_agent_read_messages your_name channel_id
      [Message.mk message channel_id your_name (Float now) (Some your_name)];;
    update_channels slack your_name;;
    mret (PResponse response).

Definition list_channels (slack : Slack.t) (your_name : string) : M Payload :=
  known ← agent_exists your_name;
  if negb known then PText <$> return_agent_doesnt_exist_error your_name false
  else mret (PChannels (Slack.list_channels slack your_name)).

Definition read_channel (slack : Slack.t) (your_name channel_name : string)
  : M Payload :=
  known ← agent_exists your_name;
  if negb known then PText <$> return_agent_doesnt_exist_error your_name false
  else
  channel ← get_channel channel_name;
  let channel_id := Channel.slack_id channel in
  let response := Slack.read slack your_name channel_id in
  if bool_decide (length (Slack.messages response) = 0%nat) then
    mret (PText not_a_member)
  else
  agent ← get_agent your_name;
  world ← get_world (Agent.world_name agent);
  let world_start_datetime := World.start_datetime world in
  messages ← filter_M (λ msg, t ← timestamp_of (Slack.ts msg);
                               mret (world_start_datetime <? t))
                      (Slack.messages response);
  r ← get_registry;
  let messages := read_channel_message r channel_id <$> messages in
  _update_agent_read_messages your_name channel_id messages;;
  mret (PMessages messages).

(** The channel [read_dm] settles on: the first ongoing DM with
    [total_users] members, the sender and the receiver among them. *)
Definition read_dm_channel (slack : Slack.t) (your_name : string)
    (total_users : nat) (sender_id receiver_id : string) : option string :=
  List.find
    (λ id, let members := Slack.get_channel_members slack your_name id in
           bool_decide (length members = total_users)
           && bool_decide (sender_id ∈ members)
           && bool_decide (receiver_id ∈ members))
    (Slack.check_ongoing_dms slack your_name).

Definition read_dm (slack : Slack.t) (your_name sender_name : string)
  : M Payload :=
  known ← agent_exists your_name;
  if negb known then PText <$> return_agent_doesnt_exist_error your_name false
  else
  known ← agent_exists sender_name;
  if negb known then PText <$> return_agent_doesnt_exist_error sender_name true
  else
  r ← get_registry;
  let total_users := (length (Registry.get_humans r) + 2)%nat in
  your_agent ← get_agent your_name;
  world_start_datetime ←
    or_raise (Registry.get_world_starttime_of_agent r sender_name)
             (NotFound "world" sender_name);
  sender_agent ← get_agent sender_name;
  let sender_id := Agent.slack_id sender_agent in
  let receiver_id := Agent.slack_id your_agent in
  (* leaving the loop without a match leaves [channel_id] unbound *)
  channel_id ←
    or_raise (read_dm_channel slack your_name total_users sender_id receiver_id)
             (UnboundLocalError "channel_id");
  let response := Slack.read slack your_name channel_id in
  match Slack.error response with
  | Some (String c e) => mret (PText (String c e))
  | _ =>
      kept ← filter_M (λ message, t ← timestamp_of (Slack.ts message);
                                  mret (world_start_datetime <=? t))
                      (Slack.messages response);
      let messages := read_dm_message r channel_id <$> kept in
      _update_agent_read_messages your_name channel_id messages;;
      mret (PMessages messages)
  end.

(** The loop of [check_new_messages] over [channel_ids_with_agent]. *)
Fixpoint check_new_messages_loop (slack : Slack.t) (your_name : string)
    (world_start_datetime : Z) (channel_ids : list string)
    (all_new_messages : list (list Message.t)) : M (list (list Message.t)) :=
  match channel_ids with
  | [] => mret all_new_messages
  | channel_id :: rest =>
      let messages := Slack.messages (Slack.read slack your_name channel_id) in
      msgs_after ← filter_M (λ msg, t ← timestamp_of (Slack.ts msg);
                                    mret (world_start_datetime <=? t))
                            messages;
      r ← get_registry;
      let msgs_after := check_new_messages_message r channel_id <$> msgs_after in
      if bool_decide (length msgs_after = 0%nat) then
        check_new_messages_loop slack your_name world_start_datetime rest
                                all_new_messages
      else
        new_messages ← only_show_new_messages your_name channel_id msgs_after;
        _update_agent_read_messages your_name channel_id new_messages;;
        check_new_messages_loop slack your_name world_start_datetime rest
                                (all_new_messages ++ [new_messages])
  end.

(** [channel_ids_with_agent]: the resolved channels that list the agent
    among their members. *)
Definition check_new_messages_channels (slack : Slack.t) (your_name : string)
    (agent_id : string) (channels : list Channel.t) : list string :=
  let channel_ids := Channel.slack_id <$> channels in
  filter (λ channel_id,
            agent_id ∈ Slack.get_channel_members slack your_name channel_id)
         channel_ids.

Definition check_new_messages (slack : Slack.t) (your_name : string)
  : M Payload :=
  known ← agent_exists your_name;
  if negb known then PText <$> return_agent_doesnt_exist_error your_name false
  else
  agent ← get_agent your_name;
  let agent_id := Agent.slack_id agent in
  world ← get_world (Agent.world_name agent);
  let world_start_datetime := World.start_datetime world in
  update_channels slack your_name;;
  agent ← get_agent your_name;
  let channel_ids_with_agent :=
    check_new_messages_channels slack your_name agent_id (Agent.channels agent) in
  all_new_messages ←
    check_new_messages_loop slack your_name world_start_datetime
                            channel_ids_with_agent [];
  mret (PNewMessages all_new_messages).

Definition get_human_info : M Payload :=
  r ← get_registry; mret (PHumans (Registry.get_humans r)).

Definition send_message_to_human (slack : Slack.t) (now : Z)
    (your_name human_name message : string) : M Payload :=
  sender ← get_agent your_name;
  human ← get_human human_name;
  let human_id := Human.slack_member_id human in
  r ← get_registry;
  if bool_decide (human_name ∉ Registry.get_human_names r) then
    PText <$> return_human_doesnt_exist_error human_name
  else
  match Slack.open_conversation slack your_name [human_id] with
  | None => raise (HTTPException 400 "Failed to open conversation")
  | Some channel_id =>
      let response := Slack.send_messsage slack your_name message channel_id in
      _update_agent_read_messages your_name channel_id
        [Message.mk message channel_id (Agent.slack_id sender) (Float now)
                    (Some your_name)];;
      mret (PResponse response)
  end.

Definition create_channel (slack : Slack.t) (your_name channel_name : string)
  : M Payload :=
  let channel_name := PyStr.lower channel_name in
  r ← get_registry;
  if bool_decide (your_name ∉ Registry.get_all_agent_names r) then
    mret (PText ("Your name is incorrect, here are possible variants for your name: " +:+
                 PyStr.repr_list (Registry.get_all_agent_names r)))
  else
    let response := Slack.create_channel slack your_name channel_name in
    r' ← or_raise (Registry.register_channel r your_name channel_name response)
                  (NotFound "world" your_name);
    put_registry r';;
    mret (PResponse response).

Definition add_member_to_channel (slack : Slack.t)
    (your_name member_to_add channel_name : string) : M Payload :=
  agent ← get_agent your_name;
  r ← get_registry;
  if bool_decide (member_to_add ∉ Registry.get_all_agent_names r) then
    if bool_decide (member_to_add ∈ Registry.get_human_names r) then
      mret (PText "You are trying to add a human to a channel. You can't add humans to a channel directly. Ask the human directly to join.")
    else
      mret (PText ("The member '" +:+ member_to_add +:+
                   "' does not exist, here are the names of all agents: " +:+
                   PyStr.repr_list (Registry.get_all_agent_names r)))
  else
    other_agent ← get_agent member_to_add;
    channel ← get_channel channel_name;
    mret (PResponse (Slack.add_user_to_channel slack your_name
                       (Channel.slack_id channel) [Agent.slack_id other_agent])).

(** *** [call_tool] *)

(** A request to [POST /tools/{tool_name}] with its parameters. [Other] is
    any name that is not a key of [self.tools]. *)
Inductive ToolCall :=
| Send_direct_message (your_name recipient_name message : string)
| Send_message_to_channel (your_name channel_name message : string)
| Read_dm (your_name sender_name : string)
| Check_new_messages (your_name : string)
| Read_channel (your_name channel_name : string)
| List_channels (your_name : string)
| Create_channel (your_name channel_name : string)
| Get_human_info (your_name : string)
| Send_message_to_human (your_name human_name message : string)
| Add_member_to_channel (your_name member_to_add channel_name : string)
| Other (tool_name : string).

(** [slack] is the backend as this request finds it, [now] the reading of
    [time.time()] during it. *)
Definition call_tool (slack : Slack.t) (now : Z) (call : ToolCall) : M Payload :=
  match call with
  | Send_direct_message y r m => send_direct_message slack now y r m
  | Send_message_to_channel y c m => send_message_to_channel slack now y c m
  | Read_dm y s => read_dm slack y s
  | Check_new_messages y => check_new_messages slack y
  | Read_channel y c => read_channel slack y c
  | List_channels y => list_channels slack y
  | Create_channel y c => create_channel slack y c
  | Get_human_info _ => get_human_info
  | Send_message_to_human y h m => send_message_to_human slack now y h m
  | Add_member_to_channel y m c => add_member_to_channel slack y m c
  | Other _ => raise (HTTPException 404 "Tool not found")
  end.

(** *** The other routes *)

Definition list_tools : list string :=
  ["send_direct_message"; "send_message_to_channel"; "read_dm";
   "check_new_messages"; "read_channel"; "list_all_my_channels";
   "create_channel"; "get_human_info"; "send_message_to_human";
   "add_member_to_channel"].

Definition register_world (now : Z) (world_name : string) : M string :=
  or_bad_request
    (r ← get_registry;
     r' ← lift (Registry.register_world r world_name now);
     put_registry r';;
     mret ("World " +:+ world_name +:+ " registered successfully")).

Definition register_agent (slack_id agent_name world_name : string) : M string :=
  or_bad_request
    (r ← get_registry;
     r' ← lift (Registry.register_agent r agent_name world_name slack_id);
     put_registry r';;
     mret ("Agent " +:+ agent_name +:+ " registered successfully in world " +:+
           world_name)).

Definition export_history (slack : Slack.t) (world_name : string) (limit : Z)
  : M (list Slack.RawMessage) :=
  or_bad_request
    (world ← get_world world_name;
     let channel_names := Channel.name <$> World.channels world in
     let response := Slack.export_history slack world_name channel_names limit in
     let world_start_datetime := World.start_datetime world in
     filter_M (λ message, t ← timestamp_of (Slack.ts message);
                          mret (world_start_datetime <=? t))
              (concat (snd <$> response))).

Definition export_agent_logs (agent_name : string) : M string :=
  or_bad_request
    (agent ← get_agent agent_name;
     _export_agent_logs agent;;
     mret ("Agent " +:+ agent_name +:+ " logs exported successfully")).

(** One request to the server: the backend and the clock it meets, and the
    Slack identity the registry gives a new agent. *)
Inductive Operation :=
| Call_tool (slack : Slack.t) (now : Z) (call : ToolCall)
| List_tools
| Register_world (now : Z) (world_name : string)
| Register_agent (slack_id agent_name world_name : string)
| Export_history (slack : Slack.t) (world_name : string) (limit : Z)
| Export_agent_logs (agent_name : string).

(** The state a request leaves behind. *)
Definition perform (op : Operation) (st : Server) : Server :=
  match op with
  | Call_tool slack now call => (call_tool slack now call st).2
  | List_tools => st
  | Register_world now world_name => (register_world now world_name st).2
  | Register_agent slack_id agent_name world_name =>
      (register_agent slack_id agent_name world_name st).2
  | Export_history slack world_name limit =>
      (export_history slack world_name limit st).2
  | Export_agent_logs agent_name => (export_agent_logs agent_name st).2
  end.

Fixpoint run (ops : list Operation) (st : Server) : Server :=
  match ops with
  | [] => st
  | op :: rest => run rest (perform op st)
  end.

(** The ledger of an agent for a channel, as the server holds it. *)
Definition ledger (st : Server) (agent_name channel_id : string)
  : list Message.t :=
  match Registry.get_agent (registry st) agent_name with
  | Some a => Agent.previous_messages a channel_id
  | None => []
  end.

(** ** A small deployment

    World [W] registered at [t0 = 1000] with agents [alice] and [bob], a
    later world [W2] registered at [2000] with agent [dave], one human
    [carol], and a backend with the DM channel [D1] of alice and bob, the DM
    channel [D2] of alice and dave, and the named channel [C1]. *)

Module Scenario.

Definition W : World.t := World.mk 1000000000 [].
Definition W2 : World.t := World.mk 2000000000 [].

Definition alice : Agent.t := Agent.mk "alice" "W" "U_ALICE" [] ∅.
Definition bob : Agent.t := Agent.mk "bob" "W" "U_BOB" [] ∅.
Definition dave : Agent.t := Agent.mk "dave" "W2" "U_DAVE" [] ∅.
Definition carol : Human.t := Human.mk "carol" "U_CAROL".

Definition general : Channel.t := Channel.mk "C1" "general".

Definition registry0 : Registry.t :=
  Registry.mk (<["W" := W]> {["W2" := W2]}) [alice; bob; dave] [carol]
              {["general" := general]} ["U_BOT"].

Definition server0 : Server := mkServer registry0 ∅.

(** The same deployment once every agent's channel list has been resolved
    against [backend] below, as [update_channels] leaves it: the agent's DM,
    named by its members without the always-add users, and [general]. *)
Definition dm1 : Channel.t := Channel.mk "D1" "U_ALICE,U_BOB,U_CAROL".
Definition dm2 : Channel.t := Channel.mk "D2" "U_ALICE,U_DAVE,U_CAROL".

Definition alice1 : Agent.t := Agent.set_channels alice [dm1; general].
Definition bob1 : Agent.t := Agent.set_channels bob [dm1; general].
Definition dave1 : Agent.t := Agent.set_channels dave [dm2; general].

Definition registry1 : Registry.t :=
  Registry.mk (<["W" := W]> {["W2" := W2]}) [alice1; bob1; dave1] [carol]
              {["general" := general]} ["U_BOT"].

Definition server1 : Server := mkServer registry1 ∅.

(** The backend, given the history of each channel. *)
Definition backend (history : string → list Slack.RawMessage) : Slack.t :=
  Slack.mk
    (λ agent, if bool_decide (agent = "dave") then ["D2"] else ["D1"])
    (λ _, [("C1", "general")])
    (λ _ channel,
       if bool_decide (channel = "D1") then ["U_ALICE"; "U_BOB"; "U_CAROL"]
       else if bool_decide (channel = "D2") then ["U_ALICE"; "U_DAVE"; "U_CAROL"]
       else ["U_ALICE"; "U_BOB"; "U_BOT"])
    (λ _ channel, Slack.mkRead (history channel) None)
    (λ agent _, Some (if bool_decide (agent = "dave") then "D2" else "D1"))
    (λ _ _ _, "ok")
    (λ _ _, "C2")
    (λ _ _ _, "ok")
    (λ _ _ _, [("D1", history "D1"); ("D2", history "D2"); ("C1", history "C1")]).

Definition only_in (channel : string) (l : list Slack.RawMessage)
  : string → list Slack.RawMessage :=
  λ c, if bool_decide (c = channel) then l else [].

(** alice sent bob "hello" at [t = 1005]. *)
Definition hello : Slack.RawMessage :=
  Slack.mkRaw "hello" "U_ALICE" "1005.000100".

Definition hello_delivered : Message.t :=
  Message.mk "hello" "D1" "U_ALICE" (Str "1005") (Some "alice").

(** alice answered "ok" twice within one second. *)
Definition ok_1 : Slack.RawMessage := Slack.mkRaw "ok" "U_ALICE" "1005.000100".
Definition ok_2 : Slack.RawMessage := Slack.mkRaw "ok" "U_ALICE" "1005.000200".

Definition ok_read : Message.t :=
  Message.mk "ok" "D1" "U_ALICE" (Str "1005") None.

(** alice wrote to dave at [t = 1500], before dave's world began. *)
Definition early : Slack.RawMessage :=
  Slack.mkRaw "early" "U_ALICE" "1500.000000".

(** A message stamped with the very start of world [W]. *)
Definition at_start : Slack.RawMessage :=
  Slack.mkRaw "first" "U_ALICE" "1000.000000".

(** carol wrote in [D1] at [t = 1006]. *)
Definition from_carol : Slack.RawMessage :=
  Slack.mkRaw "hi all" "U_CAROL" "1006.000000".

End Scenario.

(** ** Vocabulary of the properties *)

(** Every run of [m] takes a state to one related to it by [R], whether it
    returns or raises. *)
Definition keeps (R : relation Server) {A} (m : M A) : Prop :=
  ∀ st, R st (m st).2.

(** [m] leaves the state alone. *)
Definition read_only {A} (m : M A) : Prop := ∀ st, (m st).2 = st.

(** Append-only ledgers: what an agent held for a channel is still there, in
    the same place. *)
Definition ledgers_grow (st st' : Server) : Prop :=
  ∀ a c, ledger st a c `prefix_of` ledger st' a c.

(** The bookkeeping of [update_channels]: [existing_channel_ids] holds the
    ids of [all_channels], each once. *)
Definition seen_ok (acc : list Channel.t * gset string) : Prop :=
  NoDup (Channel.slack_id <$> acc.1)
  ∧ ∀ id, id ∈ acc.2 ↔ id ∈ Channel.slack_id <$> acc.1.

(** What an agent is known by: name, world and Slack id. A request changes
    the channel list and the ledger of an agent, never these. *)
Definition identity (a : Agent.t) : string * string * string :=
  (Agent.agent_name a, Agent.world_name a, Agent.slack_id a).

Definition same_identities (st st' : Server) : Prop :=
  Registry.worlds (registry st') = Registry.worlds (registry st)
  ∧ identity <$> Registry.agents (registry st')
    = identity <$> Registry.agents (registry st)
  ∧ Registry.humans (registry st') = Registry.humans (registry st)
  ∧ Registry.channels (registry st') = Registry.channels (registry st)
  ∧ Registry.always_add_users (registry st')
    = Registry.always_add_users (registry st).

(** Every [ts] of the list is in Slack's notation. *)
Definition well_stamped (messages : list Slack.RawMessage) : Prop :=
  Forall (λ m, PyStr.slack_ts (Slack.ts m) = true) messages.

(** The export of the agent's ledger goes through in [r]: the registry
    knows, by id, the channel of every key of the ledger. *)
Definition exportable (r : Registry.t) (a : Agent.t) : Prop :=
  ∀ c, is_Some (Agent.read_messages a !! c) →
       is_Some (Registry.get_channel_from_id r c).

(** The messages whose time passes [test]. *)
Definition window (test : Z → bool) (messages : list Slack.RawMessage)
  : list Slack.RawMessage :=
  filter (λ m, from_option test false (PyStr.timestamp_of (Slack.ts m)))
         messages.

(** The candidates of [check_new_messages] for one channel: the backend
    messages from the world start on, as [Message] values. *)
Definition check_new_messages_candidates (slack : Slack.t) (r : Registry.t)
    (your_name : string) (world_start_datetime : Z) (channel_id : string)
  : list Message.t :=
  check_new_messages_message r channel_id
    <$> window (λ t, world_start_datetime <=? t)
               (Slack.messages (Slack.read slack your_name channel_id)).



(** From [st] to [st'] every ledger gained only messages that satisfy [P]. *)
Definition records_only (P : Message.t → Prop) (st st' : Server) : Prop :=
  ∀ a c, ∃ extra, ledger st' a c = ledger st a c ++ extra ∧ Forall P extra.




(** ** Vocabulary of the further properties *)

(** The agent a tool call is made for, [parameters["your_name"]]. *)
Definition caller (call : ToolCall) : option string :=
  match call with
  | Send_direct_message y _ _ | Send_message_to_channel y _ _ | Read_dm y _
  | Check_new_messages y | Read_channel y _ | List_channels y
  | Create_channel y _ | Get_human_info y | Send_message_to_human y _ _
  | Add_member_to_channel y _ _ => Some y
  | Other _ => None
  end.

(** From [st] to [st'] no agent but [y] has changed: not its channel list,
    not its ledger. *)
Definition others_untouched (y : string) (st st' : Server) : Prop :=
  ∀ a, a ≠ y →
       Registry.get_agent (registry st') a = Registry.get_agent (registry st) a.

(** The branches of [call_tool] that begin with
    [if not self.agent_exists(parameters["your_name"])]. *)
Definition guarded (call : ToolCall) : bool :=
  match call with
  | Send_message_to_channel _ _ _ | List_channels _ | Read_channel _ _
  | Read_dm _ _ | Check_new_messages _ => true
  | _ => false
  end.

(** Names of ASCII characters, where [PyStr.repr_list] is the [str] of the
    list. *)
Definition ascii_names (names : list string) : Prop :=
  Forall (λ name, PyStr.is_ascii name = true) names.

(** The branches of [call_tool] that only look things up. *)
Definition is_query (call : ToolCall) : bool :=
  match call with
  | List_channels _ | Get_human_info _ | Add_member_to_channel _ _ _
  | Other _ => true
  | _ => false
  end.

(** * Properties *)

(** ** The string helpers on Slack's notation *)

Example timestamp_of_slack : PyStr.timestamp_of "1005.000200" = Some 1005000200.
Proof. reflexivity. Qed.

Example timestamp_of_whole : PyStr.timestamp_of "1000" = Some 1000000000.
Proof. reflexivity. Qed.

Example timestamp_of_junk : PyStr.timestamp_of "soon" = None.
Proof. reflexivity. Qed.

Example before_dot_slack : PyStr.before_dot "1005.000200" = "1005".
Proof. reflexivity. Qed.

Example repr_list_two : PyStr.repr_list ["alice"; "bob"] = "['alice', 'bob']".
Proof. reflexivity. Qed.

(** A name with an apostrophe goes between double quotes, a backslash is
    doubled. *)
Example repr_list_quotes :
  PyStr.repr_list ["o'neil"; "a\b"] = String "[" (String "034" "o'neil"
                                     +:+ String "034" ", 'a\\b']").
Proof. reflexivity. Qed.

Example slack_ts_slack : PyStr.slack_ts "1005.000200" = true.
Proof. reflexivity. Qed.

(** Seven digits of fraction are not Slack's notation. *)
Example slack_ts_long : PyStr.slack_ts "999.9999999" = false.
Proof. reflexivity. Qed.

Lemma digits_from_all_digits s : ∀ acc,
  PyStr.all_digits s = true → is_Some (PyStr.digits_from acc s).
Proof.
  induction s as [|c s IH]; intros acc; simpl; [by eexists|].
  destruct (PyStr.digit c); [auto|done].
Qed.

Lemma micros_from_digits k : ∀ acc s,
  PyStr.all_digits s = true → String.length s = k →
  is_Some (PyStr.micros_from k acc s).
Proof.
  induction k as [|k IH]; intros acc s Hd Hl.
  - destruct s; [|done]. by eexists.
  - destruct s as [|c s]; [done|]. cbn [PyStr.micros_from].
    simpl in Hd. destruct (PyStr.digit c); [|done].
    apply IH; [done|]. by injection Hl.
Qed.

Lemma timestamp_of_unfold s frac :
  PyStr.after_dot s = Some frac → PyStr.before_dot s ≠ EmptyString →
  PyStr.timestamp_of s
  = secs ← PyStr.digits_from 0 (PyStr.before_dot s);
    us ← PyStr.micros_from 6 0 frac;
    Some (secs * 1000000 + us).
Proof.
  intros Hf Hb. unfold PyStr.timestamp_of. rewrite Hf.
  destruct s as [|c [|c' s']]; [done| |].
  - simpl in Hb, Hf. destruct (Ascii.eqb c "."); [done|discriminate Hf].
  - destruct c as [[] [] [] [] [] [] [] []];
      by destruct (PyStr.digits_from 0 _).
Qed.

(** A [ts] in Slack's notation has a time. *)
Lemma slack_ts_parsed s :
  PyStr.slack_ts s = true → is_Some (PyStr.timestamp_of s).
Proof.
  unfold PyStr.slack_ts.
  destruct (PyStr.after_dot s) as [frac|] eqn:Hf; [|done].
  destruct (PyStr.digits_from 0 (PyStr.before_dot s)) as [secs|] eqn:Hs;
    [|done].
  intros H. apply andb_prop in H as [H H4]. apply andb_prop in H as [H H3].
  apply andb_prop in H as [H1 _].
  rewrite (timestamp_of_unfold s frac Hf), Hs.
  - destruct (micros_from_digits 6 0 frac H3) as [us Hus].
    { by apply Nat.eqb_eq. }
    cbn [mbind option_bind]. rewrite Hus. by eexists.
  - intros E. by rewrite E in H1.
Qed.

(** ** The agent table *)

Lemma find_agent_name l a ag :
  Registry.find_agent l a = Some ag → Agent.agent_name ag = a.
Proof.
  induction l as [|a0 l IH]; simpl; [done|].
  destruct (decide (Agent.agent_name a0 = a)); [|done]. by intros [= <-].
Qed.

Lemma replace_agent_eq l a ag ag' :
  Agent.agent_name ag' = a →
  Registry.find_agent l a = Some ag →
  Registry.find_agent (Registry.replace_agent l a ag') a = Some ag'.
Proof.
  intros Hn. induction l as [|a0 l IH]; simpl; [done|].
  destruct (decide (Agent.agent_name a0 = a)) as [He|Hne]; simpl.
  - intros _. by rewrite decide_True.
  - intros H. rewrite decide_False; auto.
Qed.

Lemma replace_agent_ne l a b ag' :
  Agent.agent_name ag' = a → a ≠ b →
  Registry.find_agent (Registry.replace_agent l a ag') b = Registry.find_agent l b.
Proof.
  intros Hn Hne. induction l as [|a0 l IH]; simpl; [done|].
  destruct (decide (Agent.agent_name a0 = a)) as [He|Hk]; simpl.
  - rewrite !decide_False; [done|congruence..].
  - by rewrite IH.
Qed.

Lemma find_agent_is_Some l a :
  is_Some (Registry.find_agent l a) ↔ a ∈ Agent.agent_name <$> l.
Proof.
  induction l as [|a0 l IH].
  - split; [by intros [? ?]|by intros ?%elem_of_nil].
  - cbn [Registry.find_agent]. rewrite fmap_cons, elem_of_cons.
    destruct (decide (Agent.agent_name a0 = a)) as [<-|Hne].
    + split; [by left|eauto].
    + rewrite IH. split; [by right|]. by intros [?|?].
Qed.

(** ** Running the helpers *)

Ltac run_monad :=
  unfold mbind, M_bind, mret, M_ret, fmap, M_fmap, or_raise, raise,
    get_registry, put_registry, write_log; simpl.

Lemma get_agent_ok st a ag :
  Registry.get_agent (registry st) a = Some ag → get_agent a st = (Ok ag, st).
Proof. intros H. unfold get_agent. run_monad. by rewrite H. Qed.

Lemma get_agent_missing st a :
  Registry.get_agent (registry st) a = None →
  get_agent a st = (Raise (NotFound "agent" a), st).
Proof. intros H. unfold get_agent. run_monad. by rewrite H. Qed.

Lemma agent_exists_get r a :
  Registry.agent_exists r a = true ↔ is_Some (Registry.get_agent r a).
Proof.
  unfold Registry.agent_exists, Registry.get_agent, Registry.get_all_agent_names.
  rewrite bool_decide_eq_true. symmetry. apply find_agent_is_Some.
Qed.

Lemma agent_exists_ok st a ag :
  Registry.get_agent (registry st) a = Some ag → agent_exists a st = (Ok true, st).
Proof.
  intros H. unfold agent_exists. run_monad. f_equal. f_equal.
  apply agent_exists_get. eauto.
Qed.

Lemma only_show_new_messages_ok st a ag c messages :
  Registry.get_agent (registry st) a = Some ag →
  only_show_new_messages a c messages st
  = (Ok (filter (λ msg, msg ∉ ledger st a c) messages), st).
Proof.
  intros H. unfold only_show_new_messages, ledger.
  unfold mbind, M_bind. rewrite (get_agent_ok _ _ _ H), H. done.
Qed.

Lemma set_agent_get r a ag ag' :
  Agent.agent_name ag' = a →
  Registry.get_agent r a = Some ag →
  Registry.get_agent (Registry.set_agent r a ag') a = Some ag'.
Proof. unfold Registry.get_agent, Registry.set_agent; simpl. apply replace_agent_eq. Qed.

Lemma set_agent_get_ne r a b ag' :
  Agent.agent_name ag' = a → a ≠ b →
  Registry.get_agent (Registry.set_agent r a ag') b = Registry.get_agent r b.
Proof. unfold Registry.get_agent, Registry.set_agent; simpl. apply replace_agent_ne. Qed.

Lemma get_world_ok st name w :
  Registry.get_world (registry st) name = Some w → get_world name st = (Ok w, st).
Proof. intros H. unfold get_world. run_monad. by rewrite H. Qed.

Lemma get_world_missing st name :
  Registry.get_world (registry st) name = None →
  get_world name st = (Raise (NotFound "world" name), st).
Proof. intros H. unfold get_world. run_monad. by rewrite H. Qed.

(** The export writes a document or fails; the registry is not its
    business. *)
Lemma _export_agent_logs_registry ag st :
  registry (_export_agent_logs ag st).2 = registry st.
Proof.
  unfold _export_agent_logs, get_world, get_agent. run_monad.
  destruct (Registry.get_world (registry st) (Agent.world_name ag)); simpl;
    [|done].
  destruct (Registry.get_agent (registry st) (Agent.agent_name ag)); simpl;
    [|done].
  by destruct (export_channel_metadata _ _).
Qed.

Lemma export_channel_metadata_ok r a :
  exportable r a → is_Some (export_channel_metadata r (Agent.read_messages a)).
Proof.
  intros He. unfold export_channel_metadata. rewrite decide_True; [by eexists|].
  intros c l Hc. apply He. by rewrite Hc.
Qed.

Lemma _export_agent_logs_returns st ag agent_obj w :
  Registry.get_world (registry st) (Agent.world_name ag) = Some w →
  Registry.get_agent (registry st) (Agent.agent_name ag) = Some agent_obj →
  exportable (registry st) agent_obj →
  (_export_agent_logs ag st).1 = Ok tt.
Proof.
  intros Hw Ha [md Hmd]%export_channel_metadata_ok.
  unfold _export_agent_logs.
  unfold mbind at 1, M_bind at 1. rewrite (get_world_ok _ _ _ Hw).
  unfold mbind at 1, M_bind at 1. rewrite (get_agent_ok _ _ _ Ha).
  unfold mbind at 1, M_bind at 1. unfold get_registry at 1.
  unfold mbind at 1, M_bind at 1. by rewrite Hmd.
Qed.

(** The append comes first, the export after it. *)
Lemma _update_agent_read_messages_export st a ag c messages :
  Registry.get_agent (registry st) a = Some ag →
  _update_agent_read_messages a c messages st
  = _export_agent_logs ag
      (mkServer (Registry.set_agent (registry st) a
                   (Agent.extend_read_messages ag c messages))
                (logs st)).
Proof.
  intros H. unfold _update_agent_read_messages.
  unfold mbind at 1, M_bind at 1. by rewrite (get_agent_ok _ _ _ H).
Qed.

(** The registry [_update_agent_read_messages] leaves behind, whether or
    not the export that follows the append succeeds. *)
Lemma _update_agent_read_messages_registry st a ag c messages :
  Registry.get_agent (registry st) a = Some ag →
  registry (_update_agent_read_messages a c messages st).2
  = Registry.set_agent (registry st) a
      (Agent.extend_read_messages ag c messages).
Proof.
  intros H. rewrite (_update_agent_read_messages_export _ _ _ _ _ H).
  by rewrite _export_agent_logs_registry.
Qed.

(** A change of an agent that keeps its channel list changes no lookup of
    a channel by id. *)
Lemma replace_agent_channels l a ag ag' :
  Registry.find_agent l a = Some ag →
  Agent.channels ag' = Agent.channels ag →
  Agent.channels <$> Registry.replace_agent l a ag' = Agent.channels <$> l.
Proof.
  intros H Hc. induction l as [|a0 l IH]; simpl in *; [done|].
  destruct (decide (Agent.agent_name a0 = a)).
  - injection H as ->. by rewrite !fmap_cons, Hc.
  - rewrite !fmap_cons. f_equal. by apply IH.
Qed.

Lemma get_channel_from_id_set_agent r a ag ag' id :
  Registry.get_agent r a = Some ag →
  Agent.channels ag' = Agent.channels ag →
  Registry.get_channel_from_id (Registry.set_agent r a ag') id
  = Registry.get_channel_from_id r id.
Proof.
  intros H Hc. unfold Registry.get_channel_from_id, Registry.set_agent; simpl.
  by rewrite (replace_agent_channels _ _ ag).
Qed.

Lemma exportable_set_agent r a ag ag' b :
  Registry.get_agent r a = Some ag →
  Agent.channels ag' = Agent.channels ag →
  exportable (Registry.set_agent r a ag') b ↔ exportable r b.
Proof.
  intros H Hc. unfold exportable.
  by setoid_rewrite (get_channel_from_id_set_agent r a ag ag' _ H Hc).
Qed.

Lemma exportable_empty r a : Agent.read_messages a = ∅ → exportable r a.
Proof. intros E c [l Hl]. by rewrite E, lookup_empty in Hl. Qed.

(** The ledger after an append has the keys it had, and the key of the
    append. *)
Lemma exportable_extend r ag c messages :
  exportable r ag → is_Some (Registry.get_channel_from_id r c) →
  exportable r (Agent.extend_read_messages ag c messages).
Proof.
  intros He Hc c'. unfold Agent.extend_read_messages; simpl.
  destruct (decide (c = c')) as [<-|Hne]; [done|].
  rewrite lookup_insert_ne by done. apply He.
Qed.

(** With the agent's world registered and the channels of the ledger known
    to the registry by id, it returns. *)
Lemma _update_agent_read_messages_returns st a ag w c messages :
  Registry.get_agent (registry st) a = Some ag →
  Registry.get_world (registry st) (Agent.world_name ag) = Some w →
  exportable (registry st) ag →
  is_Some (Registry.get_channel_from_id (registry st) c) →
  (_update_agent_read_messages a c messages st).1 = Ok tt.
Proof.
  intros H Hw He Hc. pose proof (find_agent_name _ _ _ H) as Hn.
  rewrite (_update_agent_read_messages_export _ _ _ _ _ H).
  apply (_export_agent_logs_returns _ _
           (Agent.extend_read_messages ag c messages) w); simpl.
  - done.
  - rewrite Hn. by apply (set_agent_get _ _ ag).
  - apply (exportable_set_agent _ a ag); [done..|].
    by apply exportable_extend.
Qed.

Lemma _update_agent_read_messages_ok st a ag w c messages :
  Registry.get_agent (registry st) a = Some ag →
  Registry.get_world (registry st) (Agent.world_name ag) = Some w →
  exportable (registry st) ag →
  is_Some (Registry.get_channel_from_id (registry st) c) →
  _update_agent_read_messages a c messages st
  = (Ok tt, (_update_agent_read_messages a c messages st).2).
Proof.
  intros H Hw He Hc.
  pose proof (_update_agent_read_messages_returns st a ag w c messages H Hw
                He Hc).
  by destruct (_update_agent_read_messages a c messages st) as [o st'];
    simplify_eq/=.
Qed.

(** After the append the ledger is as exportable as before. *)
Lemma exportable_after_update st a ag c messages :
  Registry.get_agent (registry st) a = Some ag →
  exportable (registry st) ag →
  is_Some (Registry.get_channel_from_id (registry st) c) →
  exportable (registry (_update_agent_read_messages a c messages st).2)
             (Agent.extend_read_messages ag c messages).
Proof.
  intros H He Hc. rewrite (_update_agent_read_messages_registry _ _ _ _ _ H).
  apply (exportable_set_agent _ a ag); [done..|]. by apply exportable_extend.
Qed.

Lemma get_channel_from_id_after_update st a ag c messages id :
  Registry.get_agent (registry st) a = Some ag →
  Registry.get_channel_from_id
    (registry (_update_agent_read_messages a c messages st).2) id
  = Registry.get_channel_from_id (registry st) id.
Proof.
  intros H. rewrite (_update_agent_read_messages_registry _ _ _ _ _ H).
  by apply (get_channel_from_id_set_agent _ a ag).
Qed.

Lemma previous_messages_extend ag c c' messages :
  Agent.previous_messages (Agent.extend_read_messages ag c messages) c'
  = if decide (c = c')
    then Agent.previous_messages ag c
         ++ filter (λ m, m ∉ Agent.previous_messages ag c) messages
    else Agent.previous_messages ag c'.
Proof.
  unfold Agent.extend_read_messages, Agent.previous_messages at 1; simpl.
  destruct (decide (c = c')) as [->|Hne].
  - by rewrite lookup_insert_eq.
  - by rewrite lookup_insert_ne.
Qed.

(** The ledger after a [record]: the channel gains the messages it did not
    hold, every other ledger is as before. *)
Lemma ledger_update st a ag c messages a' c' :
  Registry.get_agent (registry st) a = Some ag →
  ledger (_update_agent_read_messages a c messages st).2 a' c'
  = if decide (a = a' ∧ c = c')
    then ledger st a c ++ filter (λ m, m ∉ ledger st a c) messages
    else ledger st a' c'.
Proof.
  intros H. pose proof (find_agent_name _ _ _ H) as Hn.
  unfold ledger. rewrite (_update_agent_read_messages_registry _ _ _ _ _ H).
  destruct (decide (a = a')) as [<-|Hne].
  - rewrite (set_agent_get _ _ ag) by done. rewrite H, previous_messages_extend.
    destruct (decide (c = c')) as [<-|Hc].
    + by rewrite decide_True.
    + rewrite decide_False; [done|]. by intros [_ ?].
  - rewrite set_agent_get_ne by done. rewrite decide_False; [done|]. by intros [? _].
Qed.

Lemma get_agent_after_update st a ag c messages :
  Registry.get_agent (registry st) a = Some ag →
  Registry.get_agent (registry (_update_agent_read_messages a c messages st).2) a
  = Some (Agent.extend_read_messages ag c messages).
Proof.
  intros H. rewrite (_update_agent_read_messages_registry _ _ _ _ _ H).
  apply (set_agent_get _ _ ag); [|done]. by apply (find_agent_name _ _ _ H).
Qed.

Lemma get_world_after_update st a ag c messages name :
  Registry.get_agent (registry st) a = Some ag →
  Registry.get_world (registry (_update_agent_read_messages a c messages st).2)
    name
  = Registry.get_world (registry st) name.
Proof.
  intros H. by rewrite (_update_agent_read_messages_registry _ _ _ _ _ H).
Qed.

(** ** Lists and the dedup filter *)

Section dedup.
Context {A : Type} `{EqDecision A}.
Implicit Types (old messages : list A).

Lemma filter_not_in_nil old messages :
  (∀ x, x ∈ messages → x ∈ old) → filter (λ x, x ∉ old) messages = [].
Proof.
  intros H. induction messages as [|x l IH]; [done|].
  rewrite filter_cons_False.
  - apply IH. intros y Hy. apply H. by right.
  - intros Hx. apply Hx, H. by left.
Qed.

Lemma filter_not_in_all old messages :
  (∀ x, x ∈ messages → x ∉ old) → filter (λ x, x ∉ old) messages = messages.
Proof.
  intros H. induction messages as [|x l IH]; [done|].
  rewrite filter_cons_True.
  - f_equal. apply IH. intros y Hy. apply H. by right.
  - apply H. by left.
Qed.

(** Once the delta is appended, nothing of the candidates is new. *)
Lemma delta_after_record old messages :
  filter (λ x, x ∉ old ++ filter (λ y, y ∉ old) messages) messages = [].
Proof.
  apply filter_not_in_nil. intros x Hx. rewrite elem_of_app, list_elem_of_filter.
  destruct (decide (x ∈ old)); auto.
Qed.

Lemma filter_not_in_idemp old messages :
  filter (λ x, x ∉ old) (filter (λ x, x ∉ old) messages)
  = filter (λ x, x ∉ old) messages.
Proof.
  apply filter_not_in_all. by intros x [? _]%list_elem_of_filter.
Qed.

(** A duplicate-free batch keeps a duplicate-free ledger duplicate-free. *)
Lemma NoDup_record old messages :
  NoDup old → NoDup messages →
  NoDup (old ++ filter (λ x, x ∉ old) messages).
Proof.
  intros Ho Hm. apply NoDup_app. split_and!; [done| |by apply NoDup_filter].
  intros x Hx [Hn _]%list_elem_of_filter. done.
Qed.

End dedup.

(** ** Dedup idempotence *)

(** C2. For an agent of the registry, a channel id and a candidate list:
    after [only_show_new_messages] and then [_update_agent_read_messages]
    (on the delta, as [check_new_messages] does, or on the whole candidate
    list, as the reads do), [only_show_new_messages] on the same candidates
    gives the empty delta. With the agent's world registered and the
    channels of the ledger known to the registry by id, so that the export
    after each append goes through, the four calls in a row return, the
    second delta being empty. *)
Theorem dedup_idempotence st a ag c candidates :
  Registry.get_agent (registry st) a = Some ag →
  let d1 := filter (λ m, m ∉ ledger st a c) candidates in
  (only_show_new_messages a c candidates st).1 = Ok d1
  ∧ (only_show_new_messages a c candidates
       (_update_agent_read_messages a c d1 st).2).1 = Ok []
  ∧ (only_show_new_messages a c candidates
       (_update_agent_read_messages a c candidates st).2).1 = Ok []
  ∧ ∀ w,
      Registry.get_world (registry st) (Agent.world_name ag) = Some w →
      exportable (registry st) ag →
      is_Some (Registry.get_channel_from_id (registry st) c) →
      ((d1 ← only_show_new_messages a c candidates;
        _update_agent_read_messages a c d1;;
        d2 ← only_show_new_messages a c candidates;
        _update_agent_read_messages a c d2;;
        mret d2) st).1 = Ok []
      ∧ ((d1 ← only_show_new_messages a c candidates;
          _update_agent_read_messages a c candidates;;
          d2 ← only_show_new_messages a c candidates;
          _update_agent_read_messages a c candidates;;
          mret d2) st).1 = Ok [].
Proof.
  intros H d1.
  assert (∀ batch,
    filter (λ x, x ∉ ledger st a c) batch = d1 →
    (only_show_new_messages a c candidates
       (_update_agent_read_messages a c batch st).2).1 = Ok []) as Hstate.
  { intros batch Hb.
    pose proof (get_agent_after_update st a ag c batch H) as H1.
    rewrite (only_show_new_messages_ok _ _ _ _ _ H1). cbn [fst]. f_equal.
    rewrite (ledger_update st a ag c batch a c H), decide_True by done.
    rewrite Hb. apply delta_after_record. }
  assert (∀ w batch1 (batch2 : list Message.t → list Message.t),
    Registry.get_world (registry st) (Agent.world_name ag) = Some w →
    exportable (registry st) ag →
    is_Some (Registry.get_channel_from_id (registry st) c) →
    filter (λ x, x ∉ ledger st a c) batch1 = d1 →
    ((_update_agent_read_messages a c batch1;;
      d2 ← only_show_new_messages a c candidates;
      _update_agent_read_messages a c (batch2 d2);;
      mret d2) st).1 = Ok []) as Hgen.
  { intros w batch1 batch2 Hw He Hc Hb.
    pose proof (get_agent_after_update st a ag c batch1 H) as H1.
    pose proof (get_world_after_update st a ag c batch1
                  (Agent.world_name ag) H) as Hw1.
    pose proof (exportable_after_update st a ag c batch1 H He Hc) as He1.
    pose proof (get_channel_from_id_after_update st a ag c batch1 c H) as Hc1.
    pose proof (Hstate batch1 Hb) as Hd2.
    pose proof (_update_agent_read_messages_returns st a ag w c batch1 H Hw
                  He Hc) as Hr.
    unfold mbind at 1, M_bind at 1.
    destruct (_update_agent_read_messages a c batch1 st) as [o st1].
    simpl in H1, Hw1, He1, Hc1, Hd2, Hr. subst o. rewrite Hw in Hw1.
    rewrite <- Hc1 in Hc.
    unfold mbind at 1, M_bind at 1.
    rewrite (only_show_new_messages_ok _ _ _ _ _ H1) in Hd2 |- *.
    injection Hd2 as ->.
    unfold mbind at 1, M_bind at 1.
    by rewrite (_update_agent_read_messages_ok _ _ _ w _ _ H1). }
  split_and!.
  - by rewrite (only_show_new_messages_ok _ _ _ _ _ H).
  - apply Hstate, filter_not_in_idemp.
  - by apply Hstate.
  - intros w Hw He Hc. split.
    + unfold mbind at 1, M_bind at 1.
      rewrite (only_show_new_messages_ok _ _ _ _ _ H).
      apply (Hgen w _ (λ d, d) Hw He Hc), filter_not_in_idemp.
    + unfold mbind at 1, M_bind at 1.
      rewrite (only_show_new_messages_ok _ _ _ _ _ H).
      by apply (Hgen w _ (λ _, candidates) Hw He Hc).
Qed.

Lemma dedup_idempotence_witness :
  Registry.get_agent (registry Scenario.server1) "bob" = Some Scenario.bob1
  ∧ Registry.get_world (registry Scenario.server1)
      (Agent.world_name Scenario.bob1) = Some Scenario.W
  ∧ ((d1 ← only_show_new_messages "bob" "D1" [Scenario.hello_delivered];
      _update_agent_read_messages "bob" "D1" d1;;
      d2 ← only_show_new_messages "bob" "D1" [Scenario.hello_delivered];
      _update_agent_read_messages "bob" "D1" d2;;
      mret d2) Scenario.server1).1 = Ok [].
Proof.
  split_and!; [reflexivity..|].
  destruct (dedup_idempotence Scenario.server1 "bob" Scenario.bob1 "D1"
              [Scenario.hello_delivered] eq_refl) as (_ & _ & _ & Hrun).
  destruct (Hrun Scenario.W eq_refl) as [Hdelta _]; [| |done].
  - by apply exportable_empty.
  - eexists. vm_compute. reflexivity.
Defined.

(** ** What a request may do to the state *)

Section keeps.
Context (R : relation Server) `{!PreOrder R}.

Lemma keeps_read_only {A} (m : M A) : read_only m → keeps R m.
Proof. intros H st. by rewrite H. Qed.

Lemma keeps_ret {A} (a : A) : keeps R (mret a).
Proof. by intros st. Qed.

Lemma keeps_raise {A} e : keeps R (@raise A e).
Proof. by intros st. Qed.

Lemma keeps_bind {A B} (m : M A) (f : A → M B) :
  keeps R m → (∀ a, keeps R (f a)) → keeps R (m ≫= f).
Proof.
  intros Hm Hf st. unfold mbind, M_bind. specialize (Hm st).
  destruct (m st) as [[a|e] st1]; simpl in *; [|done].
  etrans; [done|]. apply Hf.
Qed.

End keeps.

Lemma read_only_ret {A} (a : A) : read_only (mret a).
Proof. by intros st. Qed.

Lemma read_only_raise {A} e : read_only (@raise A e).
Proof. by intros st. Qed.

Lemma read_only_or_raise {A} (o : option A) e : read_only (or_raise o e).
Proof. by destruct o. Qed.

Lemma read_only_get_registry : read_only get_registry.
Proof. done. Qed.

Lemma read_only_bind {A B} (m : M A) (f : A → M B) :
  read_only m → (∀ a, read_only (f a)) → read_only (m ≫= f).
Proof.
  intros Hm Hf st. unfold mbind, M_bind. specialize (Hm st).
  destruct (m st) as [[a|e] st1]; simpl in *; subst; [apply Hf|done].
Qed.

Lemma read_only_fmap {A B} (g : A → B) (m : M A) :
  read_only m → read_only (g <$> m).
Proof.
  intros Hm st. unfold fmap, M_fmap. specialize (Hm st).
  by destruct (m st) as [[a|e] st1].
Qed.

Lemma read_only_filter_M {A} (p : A → M bool) l :
  (∀ x, read_only (p x)) → read_only (filter_M p l).
Proof.
  intros Hp. induction l as [|x l IH]; simpl; [apply read_only_ret|].
  apply read_only_bind; [done|]. intros b. apply read_only_bind; [done|].
  intros ys. apply read_only_ret.
Qed.

Create HintDb reads discriminated.

#[local] Hint Resolve read_only_ret read_only_raise read_only_or_raise
  read_only_get_registry read_only_fmap read_only_filter_M : reads.
#[local] Hint Extern 2 (read_only (_ ≫= _)) =>
  apply read_only_bind; [|intros ?] : reads.
#[local] Hint Extern 3 (read_only (if ?b then _ else _)) => destruct b : reads.

Lemma read_only_get_agent a : read_only (get_agent a).
Proof. unfold get_agent. auto with reads. Qed.

Lemma read_only_get_world w : read_only (get_world w).
Proof. unfold get_world. auto with reads. Qed.

Lemma read_only_get_channel c : read_only (get_channel c).
Proof. unfold get_channel. auto with reads. Qed.

Lemma read_only_get_human h : read_only (get_human h).
Proof. unfold get_human. auto with reads. Qed.

Lemma read_only_agent_exists a : read_only (agent_exists a).
Proof. unfold agent_exists. auto with reads. Qed.

Lemma read_only_human_exists a : read_only (human_exists a).
Proof. unfold human_exists. auto with reads. Qed.

Lemma read_only_agent_error a b : read_only (return_agent_doesnt_exist_error a b).
Proof. unfold return_agent_doesnt_exist_error. auto with reads. Qed.

Lemma read_only_human_error a : read_only (return_human_doesnt_exist_error a).
Proof. unfold return_human_doesnt_exist_error. auto with reads. Qed.

Lemma read_only_timestamp_of s : read_only (timestamp_of s).
Proof. unfold timestamp_of. auto with reads. Qed.

#[local] Hint Resolve read_only_get_agent read_only_get_world
  read_only_get_channel read_only_get_human read_only_agent_exists
  read_only_human_exists read_only_agent_error read_only_human_error
  read_only_timestamp_of : reads.

Lemma read_only_only_show_new_messages a c l :
  read_only (only_show_new_messages a c l).
Proof. unfold only_show_new_messages. auto with reads. Qed.

Lemma read_only_get_human_info : read_only get_human_info.
Proof. unfold get_human_info. auto with reads. Qed.

Lemma read_only_list_channels slack a : read_only (list_channels slack a).
Proof. unfold list_channels. auto with reads. Qed.

Lemma read_only_add_member_to_channel slack a b c :
  read_only (add_member_to_channel slack a b c).
Proof. unfold add_member_to_channel. auto 10 with reads. Qed.

#[local] Hint Resolve read_only_only_show_new_messages : reads.

(** ** [update_channels] as a function of the backend listings *)

(** [server1] is [server0] after an [update_channels] for each agent. *)
Example server1_resolved :
  let slack := Scenario.backend (λ _, []) in
  (update_channels slack "dave"
     (update_channels slack "bob"
        (update_channels slack "alice" Scenario.server0).2).2).2
  = Scenario.server1.
Proof. vm_compute. reflexivity. Qed.

Lemma update_channels_ok slack st a ag :
  Registry.get_agent (registry st) a = Some ag →
  update_channels slack a st
  = (Ok tt,
     mkServer
       (Registry.set_agent (registry st) a
          (Agent.set_channels ag (update_channels_all slack (registry st) a)))
       (logs st)).
Proof.
  intros H. unfold update_channels. unfold mbind at 1, M_bind at 1.
  by rewrite (get_agent_ok _ _ _ H).
Qed.

Lemma update_channels_missing slack st a :
  Registry.get_agent (registry st) a = None →
  update_channels slack a st = (Raise (NotFound "agent" a), st).
Proof.
  intros H. unfold update_channels. unfold mbind at 1, M_bind at 1.
  by rewrite (get_agent_missing _ _ H).
Qed.

Lemma ledger_set_channels r lg a ag l a' c' :
  Registry.get_agent r a = Some ag →
  ledger (mkServer (Registry.set_agent r a (Agent.set_channels ag l)) lg) a' c'
  = ledger (mkServer r lg) a' c'.
Proof.
  intros H. pose proof (find_agent_name _ _ _ H) as Hn. unfold ledger; simpl.
  destruct (decide (a = a')) as [<-|Hne].
  - by rewrite (set_agent_get _ _ ag), H.
  - by rewrite set_agent_get_ne.
Qed.

Lemma ledger_update_channels slack st a a' c' :
  ledger (update_channels slack a st).2 a' c' = ledger st a' c'.
Proof.
  destruct (Registry.get_agent (registry st) a) as [ag|] eqn:H.
  - rewrite (update_channels_ok _ _ _ _ H); simpl.
    rewrite (ledger_set_channels _ _ _ _ _ _ _ H). by destruct st.
  - by rewrite (update_channels_missing _ _ _ H).
Qed.

(** ** The ledger is append-only *)

#[local] Instance ledgers_grow_preorder : PreOrder ledgers_grow.
Proof.
  split.
  - by intros st a c.
  - intros st1 st2 st3 H12 H23 a c. etrans; [apply H12|apply H23].
Qed.

Lemma grow_update_channels slack a : keeps ledgers_grow (update_channels slack a).
Proof. intros st a' c'. by rewrite ledger_update_channels. Qed.

Lemma _update_agent_read_messages_missing st a c messages :
  Registry.get_agent (registry st) a = None →
  _update_agent_read_messages a c messages st = (Raise (NotFound "agent" a), st).
Proof.
  intros H. unfold _update_agent_read_messages. unfold mbind at 1, M_bind at 1.
  by rewrite (get_agent_missing _ _ H).
Qed.

Lemma grow_update_agent_read_messages a c messages :
  keeps ledgers_grow (_update_agent_read_messages a c messages).
Proof.
  intros st a' c'.
  destruct (Registry.get_agent (registry st) a) as [ag|] eqn:H.
  - rewrite (ledger_update _ _ _ _ _ _ _ H). case_decide as Hd; [|done].
    destruct Hd as [<- <-]. by apply prefix_app_r.
  - by rewrite (_update_agent_read_messages_missing _ _ _ _ H).
Qed.

Lemma grow_create_channel slack a c : keeps ledgers_grow (create_channel slack a c).
Proof.
  intros st a' c'. unfold create_channel. run_monad. case_bool_decide; [done|].
  unfold Registry.register_channel.
  destruct (Registry.get_agent (registry st) a) as [ag|]; simpl; [|done].
  destruct (Registry.get_world (registry st) (Agent.world_name ag)); simpl; done.
Qed.

Create HintDb grows discriminated.

#[local] Hint Resolve grow_update_channels grow_update_agent_read_messages
  grow_create_channel : grows.
#[local] Hint Extern 1 (keeps ledgers_grow _) =>
  apply keeps_read_only; [apply _|solve [auto 10 with reads]] : grows.
#[local] Hint Extern 4 (keeps ledgers_grow (_ ≫= _)) =>
  apply keeps_bind; [apply _| |intros ?] : grows.
#[local] Hint Extern 5 (keeps ledgers_grow (if ?b then _ else _)) =>
  destruct b : grows.
#[local] Hint Extern 5 (keeps ledgers_grow (match ?x with _ => _ end)) =>
  destruct x : grows.

Lemma grow_check_new_messages_loop slack a start ids acc :
  keeps ledgers_grow (check_new_messages_loop slack a start ids acc).
Proof.
  revert acc. induction ids as [|id ids IH]; intros acc;
    cbn [check_new_messages_loop].
  - auto with grows.
  - apply keeps_bind; [apply _|auto with grows|]. intros msgs.
    apply keeps_bind; [apply _|auto with grows|]. intros r.
    case_bool_decide; [apply IH|].
    apply keeps_bind; [apply _|auto with grows|]. intros d.
    apply keeps_bind; [apply _|auto with grows|]. intros _. apply IH.
Qed.

#[local] Hint Resolve grow_check_new_messages_loop : grows.

Lemma grow_call_tool slack now call : keeps ledgers_grow (call_tool slack now call).
Proof.
  destruct call; simpl.
  - unfold send_direct_message. auto 20 with grows.
  - unfold send_message_to_channel. auto 20 with grows.
  - unfold read_dm. auto 30 with grows.
  - unfold check_new_messages. auto 20 with grows.
  - unfold read_channel. auto 20 with grows.
  - apply keeps_read_only; [apply _|apply read_only_list_channels].
  - auto with grows.
  - apply keeps_read_only; [apply _|apply read_only_get_human_info].
  - unfold send_message_to_human. auto 20 with grows.
  - apply keeps_read_only; [apply _|apply read_only_add_member_to_channel].
  - auto with grows.
Qed.

Lemma keeps_or_bad_request (R : relation Server) {A} (m : M A) :
  keeps R m → keeps R (or_bad_request m).
Proof.
  intros Hm st. unfold or_bad_request. specialize (Hm st).
  by destruct (m st) as [[a|e] st1].
Qed.

Lemma find_agent_app_new l a0 b :
  Agent.agent_name a0 ∉ Agent.agent_name <$> l →
  is_Some (Registry.find_agent l b) →
  Registry.find_agent (l ++ [a0]) b = Registry.find_agent l b.
Proof.
  intros Hnew. induction l as [|x l IH]; simpl.
  - by intros [? ?].
  - rewrite fmap_cons, not_elem_of_cons in Hnew. destruct Hnew as [_ Hnew].
    destruct (decide (Agent.agent_name x = b)); [done|]. by apply IH.
Qed.

Lemma grow_register_world now name : keeps ledgers_grow (register_world now name).
Proof.
  apply keeps_or_bad_request. intros st a c. unfold register_world.
  run_monad. unfold lift, Registry.register_world.
  by destruct (Registry.worlds (registry st) !! name).
Qed.

Lemma grow_register_agent id name world :
  keeps ledgers_grow (register_agent id name world).
Proof.
  apply keeps_or_bad_request. intros st a c. unfold register_agent.
  run_monad. unfold lift, Registry.register_agent.
  destruct (Registry.agent_exists (registry st) name) eqn:He; simpl; [done|].
  destruct (Registry.worlds (registry st) !! world); simpl; [|done].
  unfold ledger, Registry.get_agent; simpl.
  destruct (Registry.find_agent (Registry.agents (registry st)) a) as [ag|]
    eqn:Hag; [|apply prefix_nil].
  rewrite find_agent_app_new, Hag; [done| |by rewrite Hag].
  unfold Registry.agent_exists in He. by apply bool_decide_eq_false in He.
Qed.

Lemma grow_export_agent_logs ag : keeps ledgers_grow (_export_agent_logs ag).
Proof.
  intros st a c. unfold ledger. by rewrite _export_agent_logs_registry.
Qed.

Lemma grow_perform op : ∀ st, ledgers_grow st (perform op st).
Proof.
  destruct op; intros st; cbn [perform].
  - apply grow_call_tool.
  - done.
  - apply grow_register_world.
  - apply grow_register_agent.
  - apply (keeps_or_bad_request ledgers_grow).
    apply keeps_read_only; [apply _|]. auto 10 with reads.
  - apply (keeps_or_bad_request ledgers_grow).
    apply keeps_bind; [apply _| |intros ag].
    + apply keeps_read_only; [apply _|]. auto with reads.
    + apply keeps_bind; [apply _|apply grow_export_agent_logs|].
      intros _. apply keeps_ret. apply _.
Qed.

Lemma grow_run ops st : ledgers_grow st (run ops st).
Proof.
  revert st. induction ops as [|op ops IH]; intros st; simpl.
  - done.
  - etrans; [apply grow_perform|apply IH].
Qed.

(** C4, as the code has it. Across any run of requests (tool calls,
    registrations, exports) the ledger of an
    agent for a channel keeps what it held, so its length never decreases;
    [_update_agent_read_messages] appends exactly the messages of the batch
    that the ledger did not hold; a ledger without duplicates stays so when
    the batch itself has none; and recording the same batch once more adds
    nothing. *)
Theorem ledger_append_only ops st a ag c messages :
  let recorded := (_update_agent_read_messages a c messages st).2 in
  (length (ledger st a c) ≤ length (ledger (run ops st) a c))%nat
  ∧ ledger st a c `prefix_of` ledger (run ops st) a c
  ∧ (Registry.get_agent (registry st) a = Some ag →
     ledger recorded a c
     = ledger st a c ++ filter (λ m, m ∉ ledger st a c) messages
     ∧ (NoDup (ledger st a c) → NoDup messages → NoDup (ledger recorded a c))
     ∧ ledger (_update_agent_read_messages a c messages recorded).2 a c
       = ledger recorded a c).
Proof.
  intros recorded. split_and!.
  - apply prefix_length, grow_run.
  - apply grow_run.
  - intros H. subst recorded.
    pose proof (ledger_update st a ag c messages a c H) as HL.
    rewrite decide_True in HL by done.
    pose proof (get_agent_after_update st a ag c messages H) as H1.
    split_and!; [done| |].
    + intros Hold Hm. rewrite HL. by apply NoDup_record.
    + rewrite (ledger_update _ _ _ _ _ _ _ H1), decide_True by done.
      rewrite filter_not_in_nil, app_nil_r; [done|].
      intros x Hx. rewrite HL, elem_of_app, list_elem_of_filter.
      destruct (decide (x ∈ ledger st a c)); auto.
Qed.

Lemma ledger_append_only_witness :
  Registry.get_agent (registry Scenario.server0) "bob" = Some Scenario.bob
  ∧ NoDup (ledger Scenario.server0 "bob" "D1")
  ∧ NoDup [Scenario.hello_delivered]
  ∧ NoDup (ledger (_update_agent_read_messages "bob" "D1"
                     [Scenario.hello_delivered] Scenario.server0).2 "bob" "D1").
Proof.
  assert (Registry.get_agent (registry Scenario.server0) "bob"
          = Some Scenario.bob) as H by reflexivity.
  assert (NoDup (ledger Scenario.server0 "bob" "D1")) as H0
    by (vm_compute; constructor).
  assert (NoDup [Scenario.hello_delivered]) as H1
    by (apply NoDup_singleton).
  split_and!; [done..|].
  destruct (ledger_append_only
              [Call_tool
                 (Scenario.backend (Scenario.only_in "D1" [Scenario.hello])) 0
                 (Check_new_messages "bob")]
              Scenario.server0 "bob" Scenario.bob "D1"
              [Scenario.hello_delivered]) as (_ & _ & Hrec).
  destruct (Hrec H) as (_ & Hnodup & _). exact (Hnodup H0 H1).
Defined.

(** C4 as stated fails: [read_dm] cuts the timestamps down to whole seconds,
    so two backend messages of one sender with the same text in the same
    second become equal messages; neither is in the ledger when the batch
    is filtered, and both are appended. *)
Lemma ledger_duplicates_counterexample :
  let slack := Scenario.backend
                 (Scenario.only_in "D1" [Scenario.ok_1; Scenario.ok_2]) in
  let st' := (call_tool slack 0 (Read_dm "bob" "alice") Scenario.server0).2 in
  ledger Scenario.server0 "bob" "D1" = []
  ∧ ledger st' "bob" "D1" = [Scenario.ok_read; Scenario.ok_read]
  ∧ ¬ NoDup (ledger st' "bob" "D1").
Proof.
  assert (ledger (call_tool
            (Scenario.backend
               (Scenario.only_in "D1" [Scenario.ok_1; Scenario.ok_2]))
            0 (Read_dm "bob" "alice") Scenario.server0).2 "bob" "D1"
          = [Scenario.ok_read; Scenario.ok_read]) as E by (vm_compute; reflexivity).
  cbv zeta. split_and!; [vm_compute; reflexivity|exact E|].
  rewrite E. intros Hnd. apply NoDup_cons in Hnd as [Hnot _].
  apply Hnot. by left.
Qed.

(** ** The channel membership resolver *)

Lemma seen_ok_empty : seen_ok ([], ∅).
Proof. split; [constructor|]. intros id. simpl. set_solver. Qed.

Lemma seen_ok_add acc ch :
  seen_ok acc → Channel.slack_id ch ∉ acc.2 →
  seen_ok (acc.1 ++ [ch], {[Channel.slack_id ch]} ∪ acc.2).
Proof.
  intros [Hnd Hseen] Hnew. split; simpl.
  - rewrite fmap_app. apply NoDup_app. split_and!; [done| |apply NoDup_singleton].
    intros x Hx ->%list_elem_of_singleton. by apply Hnew, Hseen.
  - intros id. rewrite fmap_app, elem_of_app, elem_of_union, elem_of_singleton.
    simpl. rewrite list_elem_of_singleton, Hseen. tauto.
Qed.

Lemma seen_ok_dm slack r a acc id :
  seen_ok acc → seen_ok (update_channels_dm slack r a acc id).
Proof.
  intros H. unfold update_channels_dm. case_decide; [done|].
  by apply (seen_ok_add acc (update_channels_dm_channel slack r a id)).
Qed.

Lemma seen_ok_named acc channel :
  seen_ok acc → seen_ok (update_channels_named acc channel).
Proof.
  intros H. unfold update_channels_named. case_decide; [done|].
  by apply (seen_ok_add acc (Channel.mk channel.1 channel.2)).
Qed.

Lemma seen_ok_foldl {X} (step : list Channel.t * gset string → X → _) l acc :
  (∀ acc x, seen_ok acc → seen_ok (step acc x)) →
  seen_ok acc → seen_ok (foldl step acc l).
Proof.
  intros Hstep. revert acc. induction l as [|x l IH]; intros acc H; simpl; auto.
Qed.

Lemma dm_walk_seen slack r a dms acc id :
  id ∈ acc.2 → id ∈ (foldl (update_channels_dm slack r a) acc dms).2.
Proof.
  revert acc. induction dms as [|x dms IH]; intros acc Hd; simpl; [done|].
  apply IH. unfold update_channels_dm. case_decide; [done|]. simpl.
  set_solver.
Qed.

(** After the walk over the DMs, every DM id is seen and every record is the
    DM record of its id. *)
Lemma dm_walk slack r a dms acc :
  seen_ok acc →
  (∀ ch, ch ∈ acc.1 →
         ch = update_channels_dm_channel slack r a (Channel.slack_id ch)) →
  let acc' := foldl (update_channels_dm slack r a) acc dms in
  (∀ ch, ch ∈ acc'.1 →
         ch = update_channels_dm_channel slack r a (Channel.slack_id ch))
  ∧ ∀ id, id ∈ dms → id ∈ acc'.2.
Proof.
  revert acc. induction dms as [|d dms IH]; intros acc Hok Hdm; simpl.
  - split; [done|]. intros id Hid. by apply elem_of_nil in Hid.
  - assert (d ∈ (update_channels_dm slack r a acc d).2) as Hd.
    { unfold update_channels_dm. case_decide; [done|]. simpl.
      apply elem_of_union. left. by apply elem_of_singleton. }
    destruct (IH (update_channels_dm slack r a acc d)) as [H1 H2].
    + by apply seen_ok_dm.
    + unfold update_channels_dm. case_decide; [done|]. simpl.
      intros ch [?| ->%list_elem_of_singleton]%elem_of_app; [auto|done].
    + split; [done|]. intros id [->|?]%elem_of_cons; [|auto].
      by apply dm_walk_seen.
Qed.

Lemma named_walk_keeps channels acc ch :
  ch ∈ acc.1 → ch ∈ (foldl update_channels_named acc channels).1.
Proof.
  revert acc. induction channels as [|x l IH]; intros acc H; simpl; [done|].
  apply IH. unfold update_channels_named. case_decide; [done|]. simpl.
  apply elem_of_app. by left.
Qed.

Lemma filter_none {A} (P : A → Prop) `{!∀ x, Decision (P x)} (l : list A) :
  (∀ y, y ∈ l → ¬ P y) → filter P l = [].
Proof.
  induction l as [|y l IH]; intros Hno; [done|].
  rewrite filter_cons_False; [|apply Hno; by left].
  apply IH. intros z Hz. apply Hno. by right.
Qed.

Lemma filter_by_unique_key {A} (key : A → string) (l : list A) x :
  NoDup (key <$> l) → x ∈ l →
  filter (λ y, key y = key x) l = [x].
Proof.
  induction l as [|y l IH]; [by intros _ ?%elem_of_nil|].
  rewrite fmap_cons, NoDup_cons. intros [Hy Hnd] [->|Hx]%elem_of_cons.
  - rewrite filter_cons_True by done. f_equal.
    apply filter_none. intros z Hz He. apply Hy. rewrite <- He.
    by apply list_elem_of_fmap_2.
  - rewrite filter_cons_False; [auto|].
    intros He. apply Hy. rewrite He. by apply list_elem_of_fmap_2.
Qed.

Lemma update_channels_all_seen_ok slack r a :
  NoDup (Channel.slack_id <$> update_channels_all slack r a).
Proof.
  unfold update_channels_all.
  refine (proj1 (seen_ok_foldl update_channels_named _ _ _ _)).
  - intros acc x. apply seen_ok_named.
  - apply seen_ok_foldl; [|apply seen_ok_empty].
    intros acc x. apply seen_ok_dm.
Qed.

Lemma update_channels_all_dm slack r a id :
  id ∈ Slack.check_ongoing_dms slack a →
  update_channels_dm_channel slack r a id ∈ update_channels_all slack r a.
Proof.
  intros Hid. unfold update_channels_all. apply named_walk_keeps.
  destruct (dm_walk slack r a (Slack.check_ongoing_dms slack a) ([], ∅))
    as [Hrec Hseen].
  - apply seen_ok_empty.
  - intros ch Hch. by apply elem_of_nil in Hch.
  - pose proof (seen_ok_foldl (update_channels_dm slack r a)
                  (Slack.check_ongoing_dms slack a) ([], ∅)
                  (λ acc x, seen_ok_dm slack r a acc x) seen_ok_empty)
      as [_ Hids].
    apply Hseen, Hids, list_elem_of_fmap in Hid as (ch & -> & Hch).
    by rewrite <- (Hrec ch Hch).
Qed.

(** The resolver reads the registry for the always-add users only. *)
Lemma update_channels_all_set_agent slack r a b ag :
  update_channels_all slack (Registry.set_agent r b ag) a
  = update_channels_all slack r a.
Proof. done. Qed.

Lemma replace_agent_twice l a x y :
  Agent.agent_name x = a →
  Registry.replace_agent (Registry.replace_agent l a x) a y
  = Registry.replace_agent l a y.
Proof.
  intros Hn. induction l as [|a0 l IH]; simpl; [done|].
  destruct (decide (Agent.agent_name a0 = a)) as [He|Hne]; simpl.
  - by rewrite decide_True.
  - by rewrite decide_False, IH.
Qed.

(** C8. For an agent of the registry, [update_channels] returns, and running
    it again on the same backend listings changes nothing: the agent's
    channel list is the same list, hence the same set. In that list no
    channel id occurs twice, and the one record under the id of an ongoing
    DM is the DM's record, so a named channel with that id is not added. *)
Theorem update_channels_idempotent slack st a ag :
  Registry.get_agent (registry st) a = Some ag →
  let st1 := (update_channels slack a st).2 in
  let all_channels := update_channels_all slack (registry st) a in
  update_channels slack a st = (Ok tt, st1)
  ∧ Registry.get_agent (registry st1) a
    = Some (Agent.set_channels ag all_channels)
  ∧ update_channels slack a st1 = (Ok tt, st1)
  ∧ NoDup (Channel.slack_id <$> all_channels)
  ∧ ∀ id, id ∈ Slack.check_ongoing_dms slack a →
      filter (λ ch, Channel.slack_id ch = id) all_channels
      = [update_channels_dm_channel slack (registry st) a id].
Proof.
  intros H st1 all_channels. pose proof (find_agent_name _ _ _ H) as Hn.
  assert (Registry.get_agent (registry st1) a
          = Some (Agent.set_channels ag all_channels)) as H1.
  { subst st1. rewrite (update_channels_ok _ _ _ _ H); simpl.
    by apply (set_agent_get _ _ ag). }
  split_and!.
  - subst st1. by rewrite (update_channels_ok _ _ _ _ H).
  - done.
  - rewrite (update_channels_ok _ _ _ _ H1). f_equal.
    subst st1. rewrite (update_channels_ok _ _ _ _ H); simpl.
    rewrite update_channels_all_set_agent. fold all_channels. f_equal.
    unfold Registry.set_agent; simpl. f_equal.
    by apply replace_agent_twice.
  - apply update_channels_all_seen_ok.
  - intros id Hid.
    apply (filter_by_unique_key Channel.slack_id all_channels
             (update_channels_dm_channel slack (registry st) a id)).
    + apply update_channels_all_seen_ok.
    + by apply update_channels_all_dm.
Qed.

Lemma update_channels_idempotent_witness :
  let slack := Scenario.backend (Scenario.only_in "D1" [Scenario.hello]) in
  Registry.get_agent (registry Scenario.server0) "bob" = Some Scenario.bob
  ∧ update_channels slack "bob" (update_channels slack "bob" Scenario.server0).2
    = (Ok tt, (update_channels slack "bob" Scenario.server0).2).
Proof.
  cbv zeta. split; [reflexivity|].
  apply (update_channels_idempotent
           (Scenario.backend (Scenario.only_in "D1" [Scenario.hello]))
           Scenario.server0 "bob" Scenario.bob).
  reflexivity.
Defined.

(** ** Identities are stable *)

#[local] Instance same_identities_equiv : Equivalence same_identities.
Proof.
  split.
  - by intros st.
  - intros st st' (?&?&?&?&?). by split_and!.
  - intros st1 st2 st3 (?&?&?&?&?) (?&?&?&?&?). split_and!; congruence.
Qed.

Lemma replace_agent_identity l a ag ag' :
  Registry.find_agent l a = Some ag → identity ag' = identity ag →
  identity <$> Registry.replace_agent l a ag' = identity <$> l.
Proof.
  intros Hf Hid. induction l as [|a0 l IH]; [done|].
  revert Hf. cbn [Registry.find_agent Registry.replace_agent].
  destruct (decide (Agent.agent_name a0 = a)) as [He|Hne].
  - intros [= ->]. by rewrite !fmap_cons, Hid.
  - intros Hf. rewrite !fmap_cons. by rewrite IH.
Qed.

Lemma same_identities_set_agent st st' a ag ag' :
  Registry.get_agent (registry st) a = Some ag → identity ag' = identity ag →
  registry st' = Registry.set_agent (registry st) a ag' →
  same_identities st st'.
Proof.
  intros H Hid Hr. unfold same_identities. rewrite Hr.
  split_and!; try done. simpl. by apply (replace_agent_identity _ _ ag).
Qed.

Lemma same_identities_update_channels slack a :
  keeps same_identities (update_channels slack a).
Proof.
  intros st. destruct (Registry.get_agent (registry st) a) as [ag|] eqn:H.
  - rewrite (update_channels_ok _ _ _ _ H). simpl.
    eapply (same_identities_set_agent _ _ _ ag); [done| |reflexivity]. done.
  - by rewrite (update_channels_missing _ _ _ H).
Qed.

Lemma same_identities_update_agent_read_messages a c messages :
  keeps same_identities (_update_agent_read_messages a c messages).
Proof.
  intros st. destruct (Registry.get_agent (registry st) a) as [ag|] eqn:H.
  - eapply (same_identities_set_agent _ _ _ ag); [done| |
      by apply _update_agent_read_messages_registry]. done.
  - by rewrite (_update_agent_read_messages_missing _ _ _ _ H).
Qed.

Lemma identity_find l l' a ag :
  identity <$> l' = identity <$> l →
  Registry.find_agent l a = Some ag →
  ∃ ag', Registry.find_agent l' a = Some ag' ∧ identity ag' = identity ag.
Proof.
  revert l'. induction l as [|a0 l IH]; intros [|a1 l']; try done.
  rewrite !fmap_cons. intros [= Hn Hw Hi Hl]. cbn [Registry.find_agent].
  rewrite Hn. destruct (decide (Agent.agent_name a0 = a)).
  - intros [= <-]. exists a1. split; [done|]. unfold identity. congruence.
  - by apply IH.
Qed.

Lemma identity_name_from_id l l' id :
  identity <$> l' = identity <$> l →
  Agent.agent_name <$> List.find (λ x, bool_decide (Agent.slack_id x = id)) l'
  = Agent.agent_name <$> List.find (λ x, bool_decide (Agent.slack_id x = id)) l.
Proof.
  revert l'. induction l as [|a0 l IH]; intros [|a1 l']; try done.
  rewrite !fmap_cons. intros [= Hn Hw Hi Hl]. cbn [List.find]. rewrite Hi.
  destruct (bool_decide (Agent.slack_id a0 = id)); simpl; [congruence|auto].
Qed.

Lemma same_identities_get_agent st st' a ag :
  same_identities st st' → Registry.get_agent (registry st) a = Some ag →
  ∃ ag', Registry.get_agent (registry st') a = Some ag'
         ∧ identity ag' = identity ag.
Proof. intros (_&Ha&_) H. by apply (identity_find _ _ _ _ Ha H). Qed.

Lemma same_identities_name_from_id st st' id :
  same_identities st st' →
  Registry.get_agent_name_from_id (registry st') id
  = Registry.get_agent_name_from_id (registry st) id.
Proof. intros (_&Ha&_). by apply identity_name_from_id. Qed.

Lemma same_identities_candidates slack st st' a start c :
  same_identities st st' →
  check_new_messages_candidates slack (registry st') a start c
  = check_new_messages_candidates slack (registry st) a start c.
Proof.
  intros H. unfold check_new_messages_candidates. apply list_fmap_ext.
  intros _ m _. unfold check_new_messages_message.
  by rewrite (same_identities_name_from_id st st').
Qed.

Lemma same_identities_channels slack st st' a :
  same_identities st st' →
  update_channels_all slack (registry st') a
  = update_channels_all slack (registry st) a.
Proof.
  intros (_&_&_&_&Hu). unfold update_channels_all, update_channels_dm,
    update_channels_dm_channel, Registry.get_always_add_users. by rewrite Hu.
Qed.

(** ** The time window *)

Lemma filter_M_pure {A} (p : A → M bool) (q : A → bool) l st :
  (∀ x, x ∈ l → p x st = (Ok (q x), st)) →
  filter_M p l st = (Ok (filter q l), st).
Proof.
  induction l as [|x l IH]; intros Hp; [done|].
  cbn [filter_M]. unfold mbind at 1, M_bind at 1.
  rewrite Hp by (by left). unfold mbind at 1, M_bind at 1.
  rewrite IH by (intros y Hy; apply Hp; by right).
  rewrite filter_cons. unfold mret, M_ret. by destruct (q x).
Qed.

Lemma window_test_ok (test : Z → bool) m t st :
  PyStr.timestamp_of (Slack.ts m) = Some t →
  (t ← timestamp_of (Slack.ts m); mret (test t)) st = (Ok (test t), st).
Proof. intros Ht. unfold timestamp_of, mbind, M_bind. by rewrite Ht. Qed.

Lemma filter_M_window (test : Z → bool) messages st :
  well_stamped messages →
  filter_M (λ msg, t ← timestamp_of (Slack.ts msg); mret (test t)) messages st
  = (Ok (window test messages), st).
Proof.
  intros Hw. unfold window.
  apply (filter_M_pure _
           (λ m, from_option test false (PyStr.timestamp_of (Slack.ts m)))).
  intros m Hm. unfold well_stamped in Hw. rewrite Forall_forall in Hw.
  destruct (slack_ts_parsed _ (Hw m Hm)) as [t Ht]. rewrite Ht.
  by apply window_test_ok.
Qed.

(** ** [check_new_messages] *)

Lemma length_zero_nil {A} (l : list A) : length l = 0%nat ↔ l = [].
Proof. by destruct l. Qed.

(** The loop, channel by channel: a channel without candidates adds nothing;
    a channel with candidates adds its delta, empty or not, and records it. *)
Lemma check_new_messages_loop_ok slack a start ids : ∀ st acc ag w,
  NoDup ids →
  Registry.get_agent (registry st) a = Some ag →
  Registry.get_world (registry st) (Agent.world_name ag) = Some w →
  (∀ c, c ∈ ids → well_stamped (Slack.messages (Slack.read slack a c))) →
  exportable (registry st) ag →
  (∀ c, c ∈ ids → is_Some (Registry.get_channel_from_id (registry st) c)) →
  let cands := check_new_messages_candidates slack (registry st) a start in
  let fresh := filter (λ c, cands c ≠ []) ids in
  ∃ st',
    check_new_messages_loop slack a start ids acc st
    = (Ok (acc ++ ((λ c, filter (λ m, m ∉ ledger st a c) (cands c)) <$> fresh)),
       st')
    ∧ same_identities st st'
    ∧ (∀ c, ledger st' a c
            = if decide (c ∈ fresh)
              then ledger st a c ++ filter (λ m, m ∉ ledger st a c) (cands c)
              else ledger st a c)
    ∧ (∀ id, Registry.get_channel_from_id (registry st') id
             = Registry.get_channel_from_id (registry st) id)
    ∧ ∃ ag', Registry.get_agent (registry st') a = Some ag'
             ∧ exportable (registry st') ag'
             ∧ Agent.channels ag' = Agent.channels ag.
Proof.
  induction ids as [|id ids IH];
    intros st acc ag w Hnd Hag Hw Hts He Hids cands fresh.
  - exists st. subst fresh. rewrite filter_nil, fmap_nil, app_nil_r.
    split_and!; [done..| |done|by exists ag].
    intros c. rewrite decide_False; [done|]. apply not_elem_of_nil.
  - apply NoDup_cons in Hnd as [Hid Hnd].
    cbn [check_new_messages_loop].
    unfold mbind at 1, M_bind at 1.
    rewrite filter_M_window by (apply Hts; by left).
    unfold mbind at 1, M_bind at 1. unfold get_registry at 1.
    change (check_new_messages_message (registry st) id
              <$> window _ (Slack.messages (Slack.read slack a id)))
      with (cands id).
    case_bool_decide as Hlen.
    + apply length_zero_nil in Hlen.
      destruct (IH st acc ag w Hnd Hag Hw)
        as (st' & Hrun & Hsame & Hled & Hby & Hexp); [|done| |].
      { intros c Hc. apply Hts. by right. }
      { intros c Hc. apply Hids. by right. }
      exists st'. subst fresh. rewrite filter_cons_False by (by intros []).
      split_and!; done.
    + assert (cands id ≠ []) as Hne by (by rewrite <- length_zero_nil).
      unfold mbind at 1, M_bind at 1.
      rewrite (only_show_new_messages_ok _ _ _ _ _ Hag).
      set (delta := filter (λ m, m ∉ ledger st a id) (cands id)).
      unfold mbind at 1, M_bind at 1.
      pose proof (get_agent_after_update st a ag id delta Hag) as Hag1.
      pose proof (same_identities_update_agent_read_messages a id delta st)
        as Hsame1.
      pose proof (λ c, ledger_update st a ag id delta a c Hag) as Hled1.
      assert (is_Some (Registry.get_channel_from_id (registry st) id)) as Hid1
        by (apply Hids; by left).
      pose proof (_update_agent_read_messages_returns st a ag w id delta
                    Hag Hw He Hid1) as Hr.
      pose proof (get_world_after_update st a ag id delta
                    (Agent.world_name ag) Hag) as Hw1.
      pose proof (exportable_after_update st a ag id delta Hag He Hid1)
        as He1.
      pose proof (λ c, get_channel_from_id_after_update st a ag id delta c Hag)
        as Hby1.
      destruct (_update_agent_read_messages a id delta st) as [o st1].
      simpl in Hag1, Hsame1, Hled1, Hr, Hw1, He1, Hby1. subst o.
      rewrite Hw in Hw1.
      destruct (IH st1 (acc ++ [delta]) _ w Hnd Hag1 Hw1)
        as (st' & Hrun & Hsame & Hled & Hby & ag' & Hag' & He' & Hch');
        [|done| |].
      { intros c Hc. apply Hts. by right. }
      { intros c Hc. rewrite Hby1. apply Hids. by right. }
      exists st'. subst fresh. rewrite filter_cons_True by done.
      assert (∀ c, check_new_messages_candidates slack (registry st1) a start c
                   = cands c) as Hc1.
      { intros c. by apply same_identities_candidates. }
      assert (∀ c, c ∈ ids → ledger st1 a c = ledger st a c) as Hl1.
      { intros c Hc. rewrite Hled1, decide_False; [done|].
        intros [_ <-]. done. }
      split_and!.
      * rewrite Hrun, fmap_cons, <- app_assoc. simpl. do 4 f_equal.
        rewrite (list_filter_iff _ (λ c, cands c ≠ []))
          by (intros c; by rewrite Hc1).
        apply list_fmap_ext. intros _ c Hc%list_elem_of_lookup_2.
        apply list_elem_of_filter in Hc as [_ Hc].
        rewrite Hc1, (Hl1 c Hc). done.
      * by etrans.
      * intros c. rewrite Hled.
        rewrite (list_filter_iff _ (λ c, cands c ≠ []))
          by (intros c'; by rewrite Hc1).
        destruct (decide (c = id)) as [->|Hcid].
        -- rewrite decide_False by (by intros [_ ?]%list_elem_of_filter).
           rewrite decide_True by (by left).
           rewrite Hled1, decide_True by done. subst delta.
           by rewrite filter_not_in_idemp.
        -- rewrite Hc1, Hled1, (decide_False (P := a = a ∧ id = c))
             by (by intros [_ ?]).
           apply decide_ext. rewrite elem_of_cons. tauto.
      * intros c. by rewrite Hby, Hby1.
      * by exists ag'.
Qed.

(** A channel of an agent's list is known to the registry by id. *)
Lemma get_channel_from_id_listed r a ag c :
  Registry.get_agent r a = Some ag →
  c ∈ Channel.slack_id <$> Agent.channels ag →
  is_Some (Registry.get_channel_from_id r c).
Proof.
  intros Hag (ch & -> & Hch)%list_elem_of_fmap.
  unfold Registry.get_channel_from_id.
  destruct (List.find _ _) as [x|] eqn:E; [by eexists|]. exfalso.
  assert (In ch ((map_to_list (Registry.channels r)).*2
                 ++ concat (Agent.channels <$> Registry.agents r))) as Hin.
  { apply in_or_app. right. apply in_concat. exists (Agent.channels ag).
    split; [|by apply list_elem_of_In].
    apply list_elem_of_In, list_elem_of_fmap. exists ag. split; [done|].
    clear E. unfold Registry.get_agent in Hag.
    induction (Registry.agents r) as [|a0 l IH]; simpl in Hag; [done|].
    destruct (decide (Agent.agent_name a0 = a)); [|right; auto].
    injection Hag as ->. by left. }
  apply (find_none _ _ E) in Hin. by rewrite bool_decide_eq_true_2 in Hin.
Qed.

(** A channel registered by name is known by id. *)
Lemma get_channel_from_id_registered r name ch :
  Registry.get_channel r name = Some ch →
  is_Some (Registry.get_channel_from_id r (Channel.slack_id ch)).
Proof.
  intros Hch. unfold Registry.get_channel_from_id.
  destruct (List.find _ _) as [x|] eqn:E; [by eexists|]. exfalso.
  assert (In ch ((map_to_list (Registry.channels r)).*2
                 ++ concat (Agent.channels <$> Registry.agents r))) as Hin.
  { apply in_or_app. left. apply list_elem_of_In, list_elem_of_fmap.
    exists (name, ch). split; [done|]. by apply elem_of_map_to_list. }
  apply (find_none _ _ E) in Hin. by rewrite bool_decide_eq_true_2 in Hin.
Qed.


Lemma check_new_messages_channels_NoDup slack r a id :
  NoDup (check_new_messages_channels slack a id (update_channels_all slack r a)).
Proof. apply NoDup_filter, update_channels_all_seen_ok. Qed.

(** One call, for an agent of the registry whose world is registered, when
    the backend's timestamps are in Slack's notation and the registry, once
    the channel list is refreshed, knows the channels of the ledger by id. *)
Lemma check_new_messages_ok slack st a ag w :
  Registry.get_agent (registry st) a = Some ag →
  Registry.get_world (registry st) (Agent.world_name ag) = Some w →
  let ids := check_new_messages_channels slack a (Agent.slack_id ag)
               (update_channels_all slack (registry st) a) in
  (∀ c, c ∈ ids → well_stamped (Slack.messages (Slack.read slack a c))) →
  exportable (registry (update_channels slack a st).2) ag →
  let cands := check_new_messages_candidates slack (registry st) a
                 (World.start_datetime w) in
  let fresh := filter (λ c, cands c ≠ []) ids in
  ∃ st',
    check_new_messages slack a st
    = (Ok (PNewMessages
             ((λ c, filter (λ m, m ∉ ledger st a c) (cands c)) <$> fresh)),
       st')
    ∧ same_identities st st'
    ∧ (∀ c, ledger st' a c
            = if decide (c ∈ fresh)
              then ledger st a c ++ filter (λ m, m ∉ ledger st a c) (cands c)
              else ledger st a c)
    ∧ (∀ id, Registry.get_channel_from_id (registry st') id
             = Registry.get_channel_from_id
                 (registry (update_channels slack a st).2) id)
    ∧ ∃ ag', Registry.get_agent (registry st') a = Some ag'
             ∧ exportable (registry st') ag'
             ∧ Agent.channels ag' = update_channels_all slack (registry st) a.
Proof.
  intros Hag Hw ids Hts He cands fresh.
  pose proof (find_agent_name _ _ _ Hag) as Hn.
  unfold check_new_messages.
  unfold mbind at 1, M_bind at 1. rewrite (agent_exists_ok _ _ _ Hag).
  cbn [negb].
  unfold mbind at 1, M_bind at 1. rewrite (get_agent_ok _ _ _ Hag).
  unfold mbind at 1, M_bind at 1. rewrite (get_world_ok _ _ _ Hw).
  unfold mbind at 1, M_bind at 1.
  pose proof (same_identities_update_channels slack a st) as Hsame0.
  rewrite (update_channels_ok _ _ _ _ Hag) in Hsame0, He |- *.
  simpl in Hsame0, He.
  set (st0 := mkServer _ _) in Hsame0 |- *.
  assert (Registry.get_agent (registry st0) a
          = Some (Agent.set_channels ag
                    (update_channels_all slack (registry st) a))) as Hag0.
  { by apply (set_agent_get _ _ ag). }
  assert (∀ b c, ledger st0 b c = ledger st b c) as Hled0.
  { intros b c. unfold st0. rewrite (ledger_set_channels _ _ _ _ _ _ _ Hag).
    by destruct st. }
  unfold mbind at 1, M_bind at 1. rewrite (get_agent_ok _ _ _ Hag0).
  cbn [Agent.channels Agent.set_channels]. fold ids.
  destruct (check_new_messages_loop_ok slack a (World.start_datetime w) ids
              st0 [] _ w (check_new_messages_channels_NoDup _ _ _ _) Hag0 Hw
              Hts)
    as (st' & Hrun & Hsame & Hled & Hby & ag' & Hag' & He' & Hch'); [done| |].
  { intros c [_ Hc]%list_elem_of_filter.
    by apply (get_channel_from_id_listed _ a _ c Hag0). }
  assert (∀ c, check_new_messages_candidates slack (registry st0) a
                 (World.start_datetime w) c = cands c) as Hc0.
  { intros c. by apply same_identities_candidates. }
  rewrite (list_filter_iff _ (λ c, cands c ≠ [])) in Hrun, Hled
    by (intros c; by rewrite Hc0).
  exists st'. split_and!.
  - unfold mbind, M_bind. rewrite Hrun. unfold mret, M_ret. do 3 f_equal.
    apply list_fmap_ext. intros _ c _. by rewrite Hc0, Hled0.
  - by etrans.
  - intros c. by rewrite Hled, Hc0, Hled0.
  - done.
  - by exists ag'.
Qed.

Lemma set_channels_same ag : Agent.set_channels ag (Agent.channels ag) = ag.
Proof. by destruct ag. Qed.

(** What [check_new_messages] hands back, for every state. It tests the
    candidates of a channel for emptiness, not its delta: the result holds
    one list for each channel of the agent that has a message from the world
    start on, in the order of the channels, and that list is the channel's
    delta, empty or not; a channel with no such message has no entry. An
    immediately repeated call returns an empty list for each of those
    channels. *)
Lemma check_new_messages_entries slack now st a ag w :
  Registry.get_agent (registry st) a = Some ag →
  Registry.get_world (registry st) (Agent.world_name ag) = Some w →
  let ids := check_new_messages_channels slack a (Agent.slack_id ag)
               (update_channels_all slack (registry st) a) in
  (∀ c, c ∈ ids → well_stamped (Slack.messages (Slack.read slack a c))) →
  exportable (registry (update_channels slack a st).2) ag →
  let cands := check_new_messages_candidates slack (registry st) a
                 (World.start_datetime w) in
  let fresh := filter (λ c, cands c ≠ []) ids in
  let st1 := (call_tool slack now (Check_new_messages a) st).2 in
  (call_tool slack now (Check_new_messages a) st).1
  = Ok (PNewMessages
          ((λ c, filter (λ m, m ∉ ledger st a c) (cands c)) <$> fresh))
  ∧ (call_tool slack now (Check_new_messages a) st1).1
    = Ok (PNewMessages ((λ _, []) <$> fresh)).
Proof.
  intros Hag Hw ids Hts He cands fresh. cbn [call_tool].
  destruct (check_new_messages_ok slack st a ag w Hag Hw Hts He)
    as (st' & Hrun & Hsame & Hled & _ & ag' & Hag' & He' & Hch').
  fold ids cands fresh in Hrun, Hled. rewrite Hrun. cbn [fst snd].
  split; [done|].
  destruct (same_identities_get_agent st st' a ag Hsame Hag)
    as (ag'' & Hag'' & Hid).
  rewrite Hag' in Hag''. injection Hag'' as <-.
  injection Hid as Hname Hworld Hslack.
  assert (Registry.get_world (registry st') (Agent.world_name ag') = Some w)
    as Hw'.
  { destruct Hsame as (Hworlds & _). unfold Registry.get_world.
    by rewrite Hworlds, Hworld. }
  destruct (check_new_messages_ok slack st' a ag' w Hag' Hw')
    as (st'' & Hrun' & _).
  { rewrite Hslack, (same_identities_channels slack st st') by done.
    apply Hts. }
  { rewrite (update_channels_ok _ _ _ _ Hag'). simpl.
    rewrite (same_identities_channels slack st st') by done.
    rewrite <- Hch', set_channels_same.
    by apply (exportable_set_agent _ a ag' ag'). }
  rewrite Hrun'. cbn [fst]. do 2 f_equal.
  rewrite Hslack, (same_identities_channels slack st st') by done.
  fold ids.
  rewrite (list_filter_iff _ (λ c, cands c ≠ []))
    by (intros c; by rewrite (same_identities_candidates slack st st')).
  fold fresh. apply list_fmap_ext. intros _ c Hc%list_elem_of_lookup_2.
  rewrite (same_identities_candidates slack st st') by done. fold (cands c).
  rewrite Hled, decide_True by done. apply delta_after_record.
Qed.

(** C1 at a failing input. alice has sent bob "hello". bob's first
    [check_new_messages] delivers it. At the second, made at once against
    the same backend, the delta of the channel is empty, as
    [only_show_new_messages] on the delivered message shows, and the result
    still has an entry for the channel, the empty list: the guard
    [if len(msgs_after) == 0: continue] looks at the candidates, where the
    claim has the delta. *)
Lemma check_new_messages_empty_entry :
  let slack := Scenario.backend (Scenario.only_in "D1" [Scenario.hello]) in
  let first := call_tool slack 0 (Check_new_messages "bob") Scenario.server0 in
  let second := call_tool slack 1 (Check_new_messages "bob") first.2 in
  first.1 = Ok (PNewMessages [[Scenario.hello_delivered]])
  ∧ (only_show_new_messages "bob" "D1" [Scenario.hello_delivered] first.2).1
    = Ok []
  ∧ second.1 = Ok (PNewMessages [[]])
  ∧ second.1 ≠ Ok (PNewMessages []).
Proof.
  cbv zeta.
  assert ((call_tool (Scenario.backend (Scenario.only_in "D1" [Scenario.hello]))
             1 (Check_new_messages "bob")
             (call_tool
                (Scenario.backend (Scenario.only_in "D1" [Scenario.hello]))
                0 (Check_new_messages "bob") Scenario.server0).2).1
          = Ok (PNewMessages [[]])) as E by (vm_compute; reflexivity).
  split_and!; [vm_compute; reflexivity..|exact E|].
  rewrite E. discriminate.
Qed.

(** ** [read_channel] and [read_dm] *)

Lemma get_channel_ok st name ch :
  Registry.get_channel (registry st) name = Some ch →
  get_channel name st = (Ok ch, st).
Proof. intros H. unfold get_channel. run_monad. by rewrite H. Qed.

Lemma read_channel_empty slack st y ag name ch :
  Registry.get_agent (registry st) y = Some ag →
  Registry.get_channel (registry st) name = Some ch →
  Slack.messages (Slack.read slack y (Channel.slack_id ch)) = [] →
  read_channel slack y name st = (Ok (PText not_a_member), st).
Proof.
  intros Hag Hch Hnil. unfold read_channel.
  unfold mbind at 1, M_bind at 1. rewrite (agent_exists_ok _ _ _ Hag).
  cbn [negb].
  unfold mbind at 1, M_bind at 1. rewrite (get_channel_ok _ _ _ Hch).
  by rewrite Hnil, bool_decide_eq_true_2.
Qed.

Lemma read_channel_ok slack st y ag w name ch :
  Registry.get_agent (registry st) y = Some ag →
  Registry.get_world (registry st) (Agent.world_name ag) = Some w →
  Registry.get_channel (registry st) name = Some ch →
  exportable (registry st) ag →
  let response := Slack.read slack y (Channel.slack_id ch) in
  Slack.messages response ≠ [] →
  well_stamped (Slack.messages response) →
  let messages :=
    read_channel_message (registry st) (Channel.slack_id ch)
      <$> window (λ t, World.start_datetime w <? t) (Slack.messages response) in
  read_channel slack y name st
  = (Ok (PMessages messages),
     (_update_agent_read_messages y (Channel.slack_id ch) messages st).2).
Proof.
  intros Hag Hw Hch He response Hne Hts messages. unfold read_channel.
  unfold mbind at 1, M_bind at 1. rewrite (agent_exists_ok _ _ _ Hag).
  cbn [negb].
  unfold mbind at 1, M_bind at 1. rewrite (get_channel_ok _ _ _ Hch).
  rewrite bool_decide_eq_false_2 by (by rewrite length_zero_nil).
  unfold mbind at 1, M_bind at 1. rewrite (get_agent_ok _ _ _ Hag).
  unfold mbind at 1, M_bind at 1. rewrite (get_world_ok _ _ _ Hw).
  unfold mbind at 1, M_bind at 1. rewrite filter_M_window by done.
  unfold mbind at 1, M_bind at 1. unfold get_registry at 1.
  change (read_channel_message (registry st) (Channel.slack_id ch)
            <$> window _ (Slack.messages (Slack.read slack y (Channel.slack_id ch))))
    with messages.
  unfold mbind, M_bind.
  pose proof (_update_agent_read_messages_returns st y ag w
                (Channel.slack_id ch) messages Hag Hw He
                (get_channel_from_id_registered _ _ _ Hch)) as Hr.
  by destruct (_update_agent_read_messages y (Channel.slack_id ch) messages st)
    as [o st']; simplify_eq/=.
Qed.

Lemma read_dm_ok slack st y ag w s sag t0 c :
  Registry.get_agent (registry st) y = Some ag →
  Registry.get_world (registry st) (Agent.world_name ag) = Some w →
  Registry.get_agent (registry st) s = Some sag →
  Registry.get_world_starttime_of_agent (registry st) s = Some t0 →
  read_dm_channel slack y (length (Registry.get_humans (registry st)) + 2)
    (Agent.slack_id sag) (Agent.slack_id ag) = Some c →
  exportable (registry st) ag →
  is_Some (Registry.get_channel_from_id (registry st) c) →
  let response := Slack.read slack y c in
  Slack.error response = None ∨ Slack.error response = Some EmptyString →
  well_stamped (Slack.messages response) →
  let messages :=
    read_dm_message (registry st) c
      <$> window (λ t, t0 <=? t) (Slack.messages response) in
  read_dm slack y s st
  = (Ok (PMessages messages), (_update_agent_read_messages y c messages st).2).
Proof.
  intros Hag Hw Hsag Ht0 Hc He Hid response Herr Hts messages. unfold read_dm.
  unfold mbind at 1, M_bind at 1. rewrite (agent_exists_ok _ _ _ Hag).
  cbn [negb].
  unfold mbind at 1, M_bind at 1. rewrite (agent_exists_ok _ _ _ Hsag).
  cbn [negb].
  unfold mbind at 1, M_bind at 1. unfold get_registry at 1.
  unfold mbind at 1, M_bind at 1. rewrite (get_agent_ok _ _ _ Hag).
  unfold mbind at 1, M_bind at 1. rewrite Ht0. cbn [or_raise].
  unfold mret at 1, M_ret at 1.
  unfold mbind at 1, M_bind at 1. rewrite (get_agent_ok _ _ _ Hsag).
  unfold mbind at 1, M_bind at 1. rewrite Hc. cbn [or_raise].
  unfold mret at 1, M_ret at 1.
  assert (Slack.error (Slack.read slack y c) = None
          ∨ Slack.error (Slack.read slack y c) = Some EmptyString) as [E|E]
    by exact Herr; rewrite E.
  all: unfold mbind at 1, M_bind at 1; rewrite filter_M_window by done.
  all: change (read_dm_message (registry st) c
                 <$> window _ (Slack.messages (Slack.read slack y c)))
         with messages.
  all: unfold mbind, M_bind.
  all: pose proof (_update_agent_read_messages_returns st y ag w c messages
                     Hag Hw He Hid) as Hr.
  all: by destruct (_update_agent_read_messages y c messages st) as [o st'];
         simplify_eq/=.
Qed.

Lemma elem_of_window test messages m :
  m ∈ window test messages
  ↔ m ∈ messages ∧ ∃ t, PyStr.timestamp_of (Slack.ts m) = Some t ∧ test t = true.
Proof.
  unfold window. rewrite list_elem_of_filter.
  destruct (PyStr.timestamp_of (Slack.ts m)) as [t|]; simpl.
  - rewrite Is_true_true. split.
    + intros [Ht Hm]. eauto.
    + intros (Hm & t' & [= <-] & Ht). done.
  - split; [by intros [[] _]|]. by intros (_ & t & [=] & _).
Qed.

(** ** Empty reads *)




(** ** The time window at each call site *)

Lemma starttime_same_world r s sag ag w :
  Registry.get_agent r s = Some sag →
  Agent.world_name sag = Agent.world_name ag →
  Registry.get_world r (Agent.world_name ag) = Some w →
  Registry.get_world_starttime_of_agent r s = Some (World.start_datetime w).
Proof.
  intros Hs Hw Hworld. unfold Registry.get_world_starttime_of_agent.
  rewrite Hs. simpl. rewrite Hw, Hworld. done.
Qed.

Lemma elem_of_candidates slack r a start c m :
  m ∈ check_new_messages_candidates slack r a start c
  ↔ ∃ raw, m = check_new_messages_message r c raw
           ∧ raw ∈ Slack.messages (Slack.read slack a c)
           ∧ ∃ t, PyStr.timestamp_of (Slack.ts raw) = Some t ∧ start ≤ t.
Proof.
  unfold check_new_messages_candidates. rewrite list_elem_of_fmap.
  setoid_rewrite elem_of_window. by setoid_rewrite Z.leb_le.
Qed.

(** C6, as the code has it: the filter differs by operation, not by the
    kind of channel. [read_channel] returns the backend messages stamped
    strictly after the start of the caller's world. [read_dm] returns those
    stamped at or after the start of the sender's world.
    [check_new_messages] draws its candidates, in every channel it polls,
    named channel or DM, from those stamped at or after the start of the
    caller's world, and returns for each channel that has candidates the
    ones that are not in the ledger. Each is stated for timestamps in
    Slack's notation and a registry that knows the channels of the ledger
    by id, so that the call returns. *)
Theorem time_window_by_call_site slack now st y ag w :
  Registry.get_agent (registry st) y = Some ag →
  Registry.get_world (registry st) (Agent.world_name ag) = Some w →
  let start := World.start_datetime w in
  (∀ name ch,
     Registry.get_channel (registry st) name = Some ch →
     exportable (registry st) ag →
     let raw := Slack.messages (Slack.read slack y (Channel.slack_id ch)) in
     raw ≠ [] → well_stamped raw →
     (call_tool slack now (Read_channel y name) st).1
     = Ok (PMessages (read_channel_message (registry st) (Channel.slack_id ch)
                        <$> window (λ t, start <? t) raw)))
  ∧ (∀ s sag sender_start c,
       Registry.get_agent (registry st) s = Some sag →
       Registry.get_world_starttime_of_agent (registry st) s
       = Some sender_start →
       read_dm_channel slack y (length (Registry.get_humans (registry st)) + 2)
         (Agent.slack_id sag) (Agent.slack_id ag) = Some c →
       exportable (registry st) ag →
       is_Some (Registry.get_channel_from_id (registry st) c) →
       let response := Slack.read slack y c in
       Slack.error response = None ∨ Slack.error response = Some EmptyString →
       well_stamped (Slack.messages response) →
       (call_tool slack now (Read_dm y s) st).1
       = Ok (PMessages (read_dm_message (registry st) c
                          <$> window (λ t, sender_start <=? t)
                                     (Slack.messages response))))
  ∧ (let ids := check_new_messages_channels slack y (Agent.slack_id ag)
                  (update_channels_all slack (registry st) y) in
     let kept c := window (λ t, start <=? t)
                          (Slack.messages (Slack.read slack y c)) in
     (∀ c, c ∈ ids → well_stamped (Slack.messages (Slack.read slack y c))) →
     exportable (registry (update_channels slack y st).2) ag →
     (call_tool slack now (Check_new_messages y) st).1
     = Ok (PNewMessages
             ((λ c, filter (λ m, m ∉ ledger st y c)
                           (check_new_messages_message (registry st) c
                              <$> kept c))
                <$> filter (λ c, kept c ≠ []) ids)))
  ∧ (∀ raw m,
       (m ∈ window (λ t, start <? t) raw
        ↔ m ∈ raw ∧ ∃ t, PyStr.timestamp_of (Slack.ts m) = Some t ∧ start < t)
       ∧ (m ∈ window (λ t, start <=? t) raw
          ↔ m ∈ raw
            ∧ ∃ t, PyStr.timestamp_of (Slack.ts m) = Some t ∧ start ≤ t)).
Proof.
  intros Hag Hw start. split_and!.
  - intros name ch Hch He raw Hne Hts. cbn [call_tool].
    by rewrite (read_channel_ok slack st y ag w name ch Hag Hw Hch He Hne Hts).
  - intros s sag t0 c Hsag Ht0 Hc He Hid response Herr Hts. cbn [call_tool].
    by rewrite (read_dm_ok slack st y ag w s sag _ c Hag Hw Hsag Ht0 Hc He Hid
                  Herr Hts).
  - intros ids kept Hts He. cbn [call_tool].
    destruct (check_new_messages_ok slack st y ag w Hag Hw Hts He)
      as (st' & Hrun & _).
    rewrite Hrun. cbn [fst]. do 3 f_equal. apply list_filter_iff.
    intros c. unfold check_new_messages_candidates, kept, start.
    by destruct (window _ _).
  - intros raw m. rewrite !elem_of_window. split.
    + by setoid_rewrite Z.ltb_lt.
    + by setoid_rewrite Z.leb_le.
Qed.

Lemma time_window_by_call_site_witness :
  let in_general :=
    Scenario.backend (Scenario.only_in "C1" [Scenario.at_start; Scenario.hello])
  in
  let in_dm :=
    Scenario.backend (Scenario.only_in "D1" [Scenario.at_start; Scenario.hello])
  in
  (call_tool in_general 0 (Read_channel "bob" "general") Scenario.server1).1
  = Ok (PMessages [Message.mk "hello" "C1" "U_ALICE" (Str "1005.000100") None])
  ∧ (call_tool in_dm 0 (Read_dm "bob" "alice") Scenario.server1).1
    = Ok (PMessages [Message.mk "first" "D1" "U_ALICE" (Str "1000") None;
                     Message.mk "hello" "D1" "U_ALICE" (Str "1005") None])
  ∧ (call_tool in_general 0 (Check_new_messages "bob") Scenario.server1).1
    = Ok (PNewMessages
            [[Message.mk "first" "C1" "U_ALICE" (Str "1000") (Some "alice");
              Message.mk "hello" "C1" "U_ALICE" (Str "1005") (Some "alice")]]).
Proof.
  cbv zeta.
  assert (exportable (registry Scenario.server1) Scenario.bob1) as He
    by (by apply exportable_empty).
  assert (well_stamped [Scenario.at_start; Scenario.hello]) as Hts
    by (repeat (apply Forall_cons; split; [reflexivity|]); constructor).
  split_and!.
  - destruct (time_window_by_call_site
                (Scenario.backend
                   (Scenario.only_in "C1" [Scenario.at_start; Scenario.hello]))
                0 Scenario.server1 "bob" Scenario.bob1 Scenario.W
                eq_refl eq_refl) as (Hc & _ & _).
    etrans; [apply (Hc "general" Scenario.general eq_refl He)|].
    + discriminate.
    + exact Hts.
    + vm_compute. reflexivity.
  - destruct (time_window_by_call_site
                (Scenario.backend
                   (Scenario.only_in "D1" [Scenario.at_start; Scenario.hello]))
                0 Scenario.server1 "bob" Scenario.bob1 Scenario.W
                eq_refl eq_refl) as (_ & Hd & _).
    etrans; [apply (Hd "alice" Scenario.alice1 1000000000 "D1" eq_refl eq_refl
                      eq_refl He)|].
    + eexists. vm_compute. reflexivity.
    + by left.
    + exact Hts.
    + vm_compute. reflexivity.
  - destruct (time_window_by_call_site
                (Scenario.backend
                   (Scenario.only_in "C1" [Scenario.at_start; Scenario.hello]))
                0 Scenario.server1 "bob" Scenario.bob1 Scenario.W
                eq_refl eq_refl) as (_ & _ & Hp & _).
    etrans; [apply Hp|].
    + intros c Hc. vm_compute in Hc.
      apply elem_of_cons in Hc as [->|Hc]; [constructor|].
      apply elem_of_cons in Hc as [->|Hc]; [exact Hts|].
      exfalso. exact (proj1 (elem_of_nil _) Hc).
    + by apply exportable_empty.
    + vm_compute. reflexivity.
Defined.

(** C6 as stated fails for the channels [check_new_messages] reads. The
    named channel [general] holds a message stamped with the very start of
    bob's world: [read_channel] drops it, [check_new_messages] delivers it,
    so a channel read keeps a message that is not strictly after the
    start. *)
Lemma channel_read_at_world_start_counterexample :
  let slack := Scenario.backend (Scenario.only_in "C1" [Scenario.at_start]) in
  PyStr.timestamp_of (Slack.ts Scenario.at_start)
  = Some (World.start_datetime Scenario.W)
  ∧ (call_tool slack 0 (Read_channel "bob" "general") Scenario.server1).1
    = Ok (PMessages [])
  ∧ (call_tool slack 0 (Check_new_messages "bob") Scenario.server1).1
    = Ok (PNewMessages
            [[Message.mk "first" "C1" "U_ALICE" (Str "1000") (Some "alice")]]).
Proof. split_and!; vm_compute; reflexivity. Qed.

(** ** World isolation *)

(** C5 at a failing input. dave lives in world [W2], which began at 2000;
    alice lives in [W], which began at 1000; the channel lists are resolved,
    so that dave's holds their conversation [D2]. [read_dm] filters by the
    world start of the sender, alice: her message of 1500 is returned to
    dave although it is older than dave's world. *)
Lemma read_dm_before_world_start :
  let slack := Scenario.backend (Scenario.only_in "D2" [Scenario.early]) in
  Registry.get_agent (registry Scenario.server1) "dave" = Some Scenario.dave1
  ∧ Registry.get_world (registry Scenario.server1)
      (Agent.world_name Scenario.dave1) = Some Scenario.W2
  ∧ PyStr.timestamp_of (Slack.ts Scenario.early) = Some 1500000000
  ∧ 1500000000 < World.start_datetime Scenario.W2
  ∧ (call_tool slack 0 (Read_dm "dave" "alice") Scenario.server1).1
    = Ok (PMessages [Message.mk "early" "D2" "U_ALICE" (Str "1500") None]).
Proof. cbv zeta. split_and!; vm_compute; reflexivity. Qed.

(** Where the start is that of the reader's world, nothing older than it is
    returned: in [read_channel], in [read_dm] from a sender of the reader's
    world, and in [check_new_messages], every returned message is built from
    a backend message stamped at or after the start of that world. Stated
    where the registry knows the channels of the ledger by id. *)
Lemma world_isolation_reader_world slack now st y ag w :
  Registry.get_agent (registry st) y = Some ag →
  Registry.get_world (registry st) (Agent.world_name ag) = Some w →
  let start := World.start_datetime w in
  (∀ name ch l m,
     Registry.get_channel (registry st) name = Some ch →
     exportable (registry st) ag →
     well_stamped (Slack.messages (Slack.read slack y (Channel.slack_id ch))) →
     (call_tool slack now (Read_channel y name) st).1 = Ok (PMessages l) →
     m ∈ l →
     ∃ raw t, raw ∈ Slack.messages (Slack.read slack y (Channel.slack_id ch))
              ∧ PyStr.timestamp_of (Slack.ts raw) = Some t ∧ start ≤ t
              ∧ m = read_channel_message (registry st) (Channel.slack_id ch) raw)
  ∧ (∀ s sag c l m,
       Registry.get_agent (registry st) s = Some sag →
       Agent.world_name sag = Agent.world_name ag →
       read_dm_channel slack y (length (Registry.get_humans (registry st)) + 2)
         (Agent.slack_id sag) (Agent.slack_id ag) = Some c →
       exportable (registry st) ag →
       is_Some (Registry.get_channel_from_id (registry st) c) →
       Slack.error (Slack.read slack y c) = None
       ∨ Slack.error (Slack.read slack y c) = Some EmptyString →
       well_stamped (Slack.messages (Slack.read slack y c)) →
       (call_tool slack now (Read_dm y s) st).1 = Ok (PMessages l) →
       m ∈ l →
       ∃ raw t, raw ∈ Slack.messages (Slack.read slack y c)
                ∧ PyStr.timestamp_of (Slack.ts raw) = Some t ∧ start ≤ t
                ∧ m = read_dm_message (registry st) c raw)
  ∧ (∀ ls l m,
       (∀ c, c ∈ check_new_messages_channels slack y (Agent.slack_id ag)
                   (update_channels_all slack (registry st) y) →
             well_stamped (Slack.messages (Slack.read slack y c))) →
       exportable (registry (update_channels slack y st).2) ag →
       (call_tool slack now (Check_new_messages y) st).1
       = Ok (PNewMessages ls) →
       l ∈ ls → m ∈ l →
       ∃ c raw t, raw ∈ Slack.messages (Slack.read slack y c)
                  ∧ PyStr.timestamp_of (Slack.ts raw) = Some t ∧ start ≤ t
                  ∧ m = check_new_messages_message (registry st) c raw).
Proof.
  intros Hag Hw start. split_and!.
  - intros name ch l m Hch He Hts Hl Hm. cbn [call_tool] in Hl.
    destruct (Slack.messages (Slack.read slack y (Channel.slack_id ch)))
      as [|r0 raws] eqn:Hraw.
    { by rewrite (read_channel_empty slack st y ag name ch Hag Hch Hraw) in Hl. }
    rewrite (read_channel_ok slack st y ag w name ch Hag Hw Hch He) in Hl;
      [|by rewrite Hraw|by rewrite Hraw].
    injection Hl as <-. rewrite Hraw in Hm.
    apply list_elem_of_fmap in Hm as (raw & -> & Hin).
    apply elem_of_window in Hin as (Hin & t & Ht & Hlt).
    apply Z.ltb_lt in Hlt. exists raw, t. split_and!; [done..|lia|done].
  - intros s sag c l m Hsag Hsame Hc He Hid Herr Hts Hl Hm.
    cbn [call_tool] in Hl.
    pose proof (starttime_same_world _ _ _ _ _ Hsag Hsame Hw) as Ht0.
    rewrite (read_dm_ok slack st y ag w s sag _ c Hag Hw Hsag Ht0 Hc He Hid
               Herr Hts) in Hl.
    injection Hl as <-.
    apply list_elem_of_fmap in Hm as (raw & -> & Hin).
    apply elem_of_window in Hin as (Hin & t & Ht & Hle).
    apply Z.leb_le in Hle. by exists raw, t.
  - intros ls l m Hts He Hls Hl Hm. cbn [call_tool] in Hls.
    destruct (check_new_messages_ok slack st y ag w Hag Hw Hts He)
      as (st' & Hrun & _).
    rewrite Hrun in Hls. injection Hls as <-.
    apply list_elem_of_fmap in Hl as (c & -> & _).
    apply list_elem_of_filter in Hm as [_ Hm].
    apply list_elem_of_fmap in Hm as (raw & -> & Hin).
    apply elem_of_window in Hin as (Hin & t & Ht & Hle).
    apply Z.leb_le in Hle. by exists c, raw, t.
Qed.

(** ** Sender names *)

(** C7 at failing inputs. In [check_new_messages] the name comes from
    [get_agent_name_from_id] alone: carol, a human, is delivered without a
    name although the human lookup knows her. In [read_dm] (and
    [read_channel]) the test [message['user'] in get_all_agent_names()]
    compares a Slack id with names, so the human lookup is asked about
    alice, an agent, and her message is delivered without a name. The reads
    are made once the channel lists are resolved. *)
Lemma sender_name_not_resolved :
  Registry.get_human_name_from_id Scenario.registry0 "U_CAROL" = Some "carol"
  ∧ (call_tool (Scenario.backend (Scenario.only_in "D1" [Scenario.from_carol]))
       0 (Check_new_messages "bob") Scenario.server0).1
    = Ok (PNewMessages
            [[Message.mk "hi all" "D1" "U_CAROL" (Str "1006") None]])
  ∧ Registry.get_agent_name_from_id Scenario.registry0 "U_ALICE" = Some "alice"
  ∧ (call_tool (Scenario.backend (Scenario.only_in "D1" [Scenario.hello]))
       0 (Read_dm "bob" "alice") Scenario.server1).1
    = Ok (PMessages [Message.mk "hello" "D1" "U_ALICE" (Str "1005") None])
  ∧ (call_tool (Scenario.backend (Scenario.only_in "C1" [Scenario.hello]))
       0 (Read_channel "bob" "general") Scenario.server1).1
    = Ok (PMessages
            [Message.mk "hello" "C1" "U_ALICE" (Str "1005.000100") None]).
Proof. split_and!; vm_compute; reflexivity. Qed.

(** [check_new_messages] never consults the humans: with any other list of
    humans in the registry its candidates are the same. *)
Lemma check_new_messages_ignores_humans slack r humans' a start c :
  check_new_messages_candidates slack
    (Registry.mk (Registry.worlds r) (Registry.agents r) humans'
                 (Registry.channels r) (Registry.always_add_users r))
    a start c
  = check_new_messages_candidates slack r a start c.
Proof. done. Qed.

(** ** Sending to a human *)

Lemma get_human_unknown r h :
  Registry.human_exists r h = false → Registry.get_human r h = None.
Proof.
  unfold Registry.human_exists, Registry.get_human, Registry.get_human_names.
  rewrite bool_decide_eq_false. induction (Registry.humans r) as [|x l IH].
  - done.
  - rewrite fmap_cons, not_elem_of_cons. intros [Hx Hl]. simpl.
    rewrite bool_decide_eq_false_2 by done. by apply IH.
Qed.

(** The lookup of the human comes before the test of the name: for a human
    that does not exist the call raises, whatever the state. *)
Lemma unknown_human_always_raises slack now st y h m :
  Registry.human_exists (registry st) h = false →
  ∃ e, call_tool slack now (Send_message_to_human y h m) st = (Raise e, st)
       ∧ (e = NotFound "agent" y ∨ e = NotFound "human" h).
Proof.
  intros Hh. cbn [call_tool]. unfold send_message_to_human.
  destruct (Registry.get_agent (registry st) y) as [ag|] eqn:Hag.
  - exists (NotFound "human" h). split; [|by right].
    unfold mbind at 1, M_bind at 1. rewrite (get_agent_ok _ _ _ Hag).
    unfold mbind at 1, M_bind at 1. unfold get_human. run_monad.
    by rewrite (get_human_unknown _ _ Hh).
  - exists (NotFound "agent" y). split; [|by left].
    unfold mbind at 1, M_bind at 1. by rewrite (get_agent_missing _ _ Hag).
Qed.

(** C9 at a failing input. bob writes to "nobody", who is not a human of the
    registry: the call raises at the lookup and never reaches the text that
    lists the humans. *)
Lemma send_message_to_human_unknown_raises :
  Registry.get_human_names Scenario.registry0 = ["carol"]
  ∧ call_tool (Scenario.backend (λ _, [])) 0
      (Send_message_to_human "bob" "nobody" "hi") Scenario.server0
    = (Raise (NotFound "human" "nobody"), Scenario.server0)
  ∧ (return_human_doesnt_exist_error "nobody" Scenario.server0).1
    = Ok "The human 'nobody' does not exist, here are possible humans: ['carol']".
Proof. split_and!; vm_compute; reflexivity. Qed.

(** ** What the sends record, what the reads return *)

Ltac keeps_tac leaf :=
  repeat first
    [ apply keeps_read_only; [apply _|solve [auto 10 with reads]]
    | leaf
    | apply keeps_bind; [apply _| |intros ?]
    | match goal with
      | |- keeps _ (if ?b then _ else _) => destruct b
      | |- keeps _ (match ?x with _ => _ end) => destruct x
      end ].



Section records_only.
Context (P : Message.t → Prop).

#[global] Instance records_only_preorder : PreOrder (records_only P).
Proof.
  split.
  - intros st a c. exists []. by rewrite app_nil_r.
  - intros st1 st2 st3 H12 H23 a c.
    destruct (H12 a c) as (e1 & E1 & He1), (H23 a c) as (e2 & E2 & He2).
    exists (e1 ++ e2). rewrite E2, E1, app_assoc. split; [done|].
    by apply Forall_app.
Qed.



End records_only.















Lemma only_show_new_messages_missing st a c messages :
  Registry.get_agent (registry st) a = None →
  only_show_new_messages a c messages st = (Raise (NotFound "agent" a), st).
Proof.
  intros H. unfold only_show_new_messages. unfold mbind, M_bind.
  by rewrite (get_agent_missing _ _ H).
Qed.


(** * Further properties *)

(** ** One agent's requests and the other agents *)

#[global] Instance others_untouched_preorder y : PreOrder (others_untouched y).
Proof.
  split.
  - by intros st a Ha.
  - intros st1 st2 st3 H12 H23 a Ha. by rewrite H23, H12.
Qed.

Lemma others_untouched_update_channels slack y :
  keeps (others_untouched y) (update_channels slack y).
Proof.
  intros st a Ha. destruct (Registry.get_agent (registry st) y) as [ag|] eqn:H.
  - rewrite (update_channels_ok _ _ _ _ H). simpl.
    apply set_agent_get_ne; [|done]. by apply (find_agent_name _ _ _ H).
  - by rewrite (update_channels_missing _ _ _ H).
Qed.

Lemma others_untouched_update y c messages :
  keeps (others_untouched y) (_update_agent_read_messages y c messages).
Proof.
  intros st a Ha. destruct (Registry.get_agent (registry st) y) as [ag|] eqn:H.
  - rewrite (_update_agent_read_messages_registry _ _ _ _ _ H).
    apply set_agent_get_ne; [|done]. by apply (find_agent_name _ _ _ H).
  - by rewrite (_update_agent_read_messages_missing _ _ _ _ H).
Qed.

Lemma create_channel_agents slack y name st :
  Registry.agents (registry (create_channel slack y name st).2)
  = Registry.agents (registry st).
Proof.
  unfold create_channel. run_monad. case_bool_decide; [done|].
  unfold Registry.register_channel.
  destruct (Registry.get_agent (registry st) y) as [ag|]; simpl; [|done].
  by destruct (Registry.get_world (registry st) (Agent.world_name ag)).
Qed.

Lemma others_untouched_create_channel slack y name :
  keeps (others_untouched y) (create_channel slack y name).
Proof.
  intros st a Ha. unfold Registry.get_agent. by rewrite create_channel_agents.
Qed.

Lemma others_untouched_loop slack y start ids acc :
  keeps (others_untouched y) (check_new_messages_loop slack y start ids acc).
Proof.
  revert acc. induction ids as [|id ids IH]; intros acc;
    cbn [check_new_messages_loop].
  - apply keeps_ret. apply _.
  - keeps_tac ltac:(first [ apply IH | apply others_untouched_update ]).
Qed.

(** X1. A tool call made for agent [y] leaves every other agent as it was:
    its channel list and its whole ledger. *)
Theorem call_tool_others_untouched slack now call y st :
  caller call = Some y →
  ∀ a, a ≠ y →
       Registry.get_agent (registry (call_tool slack now call st).2) a
       = Registry.get_agent (registry st) a.
Proof.
  intros Hc.
  assert (keeps (others_untouched y) (call_tool slack now call)) as Hk;
    [|exact (Hk st)].
  destruct call; try discriminate Hc; injection Hc as ->; cbn [call_tool];
    unfold send_direct_message, send_message_to_channel, read_dm,
      check_new_messages, read_channel, list_channels, get_human_info,
      send_message_to_human, add_member_to_channel;
    keeps_tac ltac:(first [ apply others_untouched_update_channels
                          | apply others_untouched_update
                          | apply others_untouched_create_channel
                          | apply others_untouched_loop ]).
Qed.

Lemma call_tool_others_untouched_witness :
  let slack := Scenario.backend (Scenario.only_in "D1" [Scenario.hello]) in
  caller (Check_new_messages "bob") = Some "bob"
  ∧ Registry.get_agent
      (registry (call_tool slack 0 (Check_new_messages "bob")
                   Scenario.server0).2) "alice"
    = Some Scenario.alice.
Proof.
  cbv zeta. split; [reflexivity|].
  rewrite (call_tool_others_untouched
             (Scenario.backend (Scenario.only_in "D1" [Scenario.hello])) 0
             (Check_new_messages "bob") "bob" Scenario.server0 eq_refl "alice");
    [reflexivity|discriminate].
Defined.

(** ** Requests that change nothing *)

(** X2. [list_channels], [get_human_info], [add_member_to_channel] and a
    request for an unknown tool leave the server state as it is, whatever
    they return or raise. *)
Theorem queries_change_nothing slack now call st :
  is_query call = true → (call_tool slack now call st).2 = st.
Proof.
  intros Hq. destruct call; try discriminate Hq; cbn [call_tool].
  - apply read_only_list_channels.
  - apply read_only_get_human_info.
  - apply read_only_add_member_to_channel.
  - done.
Qed.

Lemma queries_change_nothing_witness :
  is_query (Add_member_to_channel "bob" "alice" "general") = true
  ∧ (call_tool (Scenario.backend (λ _, [])) 0
       (Add_member_to_channel "bob" "alice" "general") Scenario.server0).2
    = Scenario.server0.
Proof.
  split; [reflexivity|].
  by apply (queries_change_nothing (Scenario.backend (λ _, [])) 0
              (Add_member_to_channel "bob" "alice" "general")
              Scenario.server0).
Defined.

Lemma agent_exists_missing st a :
  Registry.get_agent (registry st) a = None → agent_exists a st = (Ok false, st).
Proof.
  intros H. unfold agent_exists. run_monad. do 2 f_equal.
  destruct (Registry.agent_exists (registry st) a) eqn:E; [|done].
  apply agent_exists_get in E as [ag Hag]. congruence.
Qed.

Lemma agent_error_ok st a sender :
  return_agent_doesnt_exist_error a sender st
  = (Ok ((if sender then "The sender '" else "The agent '") +:+ a +:+
         "' does not exist, here are possible agents: " +:+
         PyStr.repr_list (Registry.get_all_agent_names (registry st))), st).
Proof. unfold return_agent_doesnt_exist_error. run_monad. by destruct sender. Qed.

Lemma agent_error_text st a sender :
  (PText <$> return_agent_doesnt_exist_error a sender) st
  = (Ok (PText ((if sender then "The sender '" else "The agent '") +:+ a +:+
                "' does not exist, here are possible agents: " +:+
                PyStr.repr_list (Registry.get_all_agent_names (registry st)))),
     st).
Proof. unfold fmap, M_fmap. by rewrite agent_error_ok. Qed.

(** X3. The five branches guarded by [agent_exists(your_name)] answer a
    caller that is not registered with the text that lists the registered
    agents, and change nothing: no backend call is recorded, no channel list
    refreshed. The text is stated for agent names of ASCII characters. *)
Theorem unknown_caller_is_told slack now call y st :
  guarded call = true → caller call = Some y →
  Registry.get_agent (registry st) y = None →
  ascii_names (Registry.get_all_agent_names (registry st)) →
  call_tool slack now call st
  = (Ok (PText ("The agent '" +:+ y +:+
                "' does not exist, here are possible agents: " +:+
                PyStr.repr_list (Registry.get_all_agent_names (registry st)))),
     st).
Proof.
  intros Hg Hc Hy _.
  destruct call; try discriminate Hg; injection Hc as ->; cbn [call_tool];
    unfold send_message_to_channel, read_dm, check_new_messages, read_channel,
      list_channels;
    unfold mbind at 1, M_bind at 1; rewrite (agent_exists_missing _ _ Hy);
    cbn [negb]; apply (agent_error_text st y false).
Qed.

Lemma unknown_caller_is_told_witness :
  guarded (Read_channel "zed" "general") = true
  ∧ caller (Read_channel "zed" "general") = Some "zed"
  ∧ Registry.get_agent (registry Scenario.server0) "zed" = None
  ∧ call_tool (Scenario.backend (λ _, [])) 0 (Read_channel "zed" "general")
      Scenario.server0
    = (Ok (PText "The agent 'zed' does not exist, here are possible agents: ['alice', 'bob', 'dave']"),
       Scenario.server0).
Proof.
  split_and!; [reflexivity..|].
  rewrite (unknown_caller_is_told (Scenario.backend (λ _, [])) 0
             (Read_channel "zed" "general") "zed" Scenario.server0
             eq_refl eq_refl eq_refl); [done|].
  repeat (apply Forall_cons; split; [reflexivity|]). constructor.
Defined.

Lemma human_exists_ok st h :
  human_exists h st = (Ok (Registry.human_exists (registry st) h), st).
Proof. done. Qed.

(** X4. [send_direct_message] looks at the recipient first. A recipient that
    is a human and not an agent gets the hint to use [send_message_to_human];
    a recipient that is neither gets the list of agents; a known recipient
    with an unknown sender gets the list too. Nothing is sent or recorded in
    any of the three cases. The texts are stated for agent names of ASCII
    characters. *)
Theorem send_direct_message_names_checked slack now y r m st :
  ascii_names (Registry.get_all_agent_names (registry st)) →
  (Registry.get_agent (registry st) r = None →
   call_tool slack now (Send_direct_message y r m) st
   = (Ok (PText
            (if Registry.human_exists (registry st) r
             then "You are trying to send a message to a human. For that use the send_message_to_human tool."
             else "The agent '" +:+ r +:+
                  "' does not exist, here are possible agents: " +:+
                  PyStr.repr_list (Registry.get_all_agent_names (registry st)))),
      st))
  ∧ (is_Some (Registry.get_agent (registry st) r) →
     Registry.get_agent (registry st) y = None →
     call_tool slack now (Send_direct_message y r m) st
     = (Ok (PText ("The agent '" +:+ y +:+
                   "' does not exist, here are possible agents: " +:+
                   PyStr.repr_list (Registry.get_all_agent_names (registry st)))),
        st)).
Proof.
  intros _. split.
  - intros Hr. cbn [call_tool]. unfold send_direct_message.
    unfold mbind at 1, M_bind at 1. rewrite (agent_exists_missing _ _ Hr).
    cbn [negb]. unfold mbind at 1, M_bind at 1. rewrite human_exists_ok.
    destruct (Registry.human_exists (registry st) r); [done|].
    apply (agent_error_text st r false).
  - intros [rag Hr] Hy. cbn [call_tool]. unfold send_direct_message.
    unfold mbind at 1, M_bind at 1. rewrite (agent_exists_ok _ _ _ Hr).
    cbn [negb]. unfold mbind at 1, M_bind at 1.
    rewrite (agent_exists_missing _ _ Hy). cbn [negb].
    apply (agent_error_text st y false).
Qed.

Lemma send_direct_message_names_checked_witness :
  Registry.get_agent (registry Scenario.server0) "carol" = None
  ∧ call_tool (Scenario.backend (λ _, [])) 0
      (Send_direct_message "bob" "carol" "hi") Scenario.server0
    = (Ok (PText "You are trying to send a message to a human. For that use the send_message_to_human tool."),
       Scenario.server0)
  ∧ is_Some (Registry.get_agent (registry Scenario.server0) "alice")
  ∧ Registry.get_agent (registry Scenario.server0) "zed" = None
  ∧ call_tool (Scenario.backend (λ _, [])) 0
      (Send_direct_message "zed" "alice" "hi") Scenario.server0
    = (Ok (PText "The agent 'zed' does not exist, here are possible agents: ['alice', 'bob', 'dave']"),
       Scenario.server0).
Proof.
  assert (ascii_names (Registry.get_all_agent_names
                         (registry Scenario.server0))) as Ha
    by (repeat (apply Forall_cons; split; [reflexivity|]); constructor).
  split_and!; [reflexivity| |by eexists|reflexivity|].
  - destruct (send_direct_message_names_checked (Scenario.backend (λ _, [])) 0
                "bob" "carol" "hi" Scenario.server0 Ha) as [H _].
    by rewrite (H eq_refl).
  - destruct (send_direct_message_names_checked (Scenario.backend (λ _, [])) 0
                "zed" "alice" "hi" Scenario.server0 Ha) as [_ H].
    by rewrite (H (mk_is_Some _ _ eq_refl) eq_refl).
Defined.

(** ** Sending *)

Lemma ledger_after_update_channels slack st a ag :
  Registry.get_agent (registry st) a = Some ag →
  Registry.get_agent (registry (update_channels slack a st).2) a
  = Some (Agent.set_channels ag (update_channels_all slack (registry st) a)).
Proof.
  intros H. rewrite (update_channels_ok _ _ _ _ H). simpl.
  apply (set_agent_get _ _ ag); [|done]. by apply (find_agent_name _ _ _ H).
Qed.

Lemma update_channels_returns slack st a ag :
  Registry.get_agent (registry st) a = Some ag →
  update_channels slack a st = (Ok tt, (update_channels slack a st).2).
Proof. intros H. by rewrite (update_channels_ok _ _ _ _ H). Qed.

Lemma get_world_after_update_channels slack st a name :
  Registry.get_world (registry (update_channels slack a st).2) name
  = Registry.get_world (registry st) name.
Proof.
  destruct (Registry.get_agent (registry st) a) as [ag|] eqn:H.
  - by rewrite (update_channels_ok _ _ _ _ H).
  - by rewrite (update_channels_missing _ _ _ H).
Qed.

Lemma elem_of_recorded {A} `{EqDecision A} (old : list A) x :
  x ∈ old ++ filter (λ m, m ∉ old) [x].
Proof.
  rewrite elem_of_app. destruct (decide (x ∈ old)) as [Hx|Hx]; [by left|].
  right. rewrite filter_cons_True by done. by left.
Qed.

Lemma then_ret_state {A B} (m : M A) (b : B) st :
  ((m;; mret b) st).2 = (m st).2.
Proof. unfold mbind, M_bind. by destruct (m st) as [[a|e] st']. Qed.

Lemma then_ret_ok {A B} (m : M A) (b : B) st a :
  (m st).1 = Ok a → ((m;; mret b) st).1 = Ok b.
Proof.
  unfold mbind, M_bind. destruct (m st) as [[a'|e] st']; [done|]. by intros [=].
Qed.

(** X5. Self-visibility. When sender and recipient are registered agents,
    the sender's world is registered and the backend opens the conversation
    [c], [send_direct_message] has refreshed the sender's channel list and
    has appended the message, stamped with the clock and the sender's Slack
    id, to the sender's ledger for [c] (unless an equal message is there
    already) and to no other ledger. It returns the backend's response when
    the export that follows the append goes through: when the registry,
    with the refreshed list, knows [c] and the channels of the sender's
    ledger by id. *)
Theorem send_direct_message_recorded slack now y r m st ag w rag c :
  Registry.get_agent (registry st) y = Some ag →
  Registry.get_world (registry st) (Agent.world_name ag) = Some w →
  Registry.get_agent (registry st) r = Some rag →
  Slack.open_conversation slack y [Agent.slack_id rag] = Some c →
  let sent := Message.mk m c (Agent.slack_id ag) (Float now) (Some y) in
  let st' := (call_tool slack now (Send_direct_message y r m) st).2 in
  let refreshed := registry (update_channels slack y st).2 in
  (exportable refreshed ag →
   is_Some (Registry.get_channel_from_id refreshed c) →
   (call_tool slack now (Send_direct_message y r m) st).1
   = Ok (PResponse (Slack.send_messsage slack y m c)))
  ∧ sent ∈ ledger st' y c
  ∧ (∀ a c', ledger st' a c'
             = if decide (a = y ∧ c' = c)
               then ledger st y c ++ filter (λ x, x ∉ ledger st y c) [sent]
               else ledger st a c')
  ∧ Agent.channels <$> Registry.get_agent (registry st') y
    = Some (update_channels_all slack (registry st) y).
Proof.
  intros Hy Hw Hr Ho sent st' refreshed.
  pose proof (ledger_after_update_channels slack st y ag Hy) as Hy0.
  pose proof (update_channels_returns slack st y ag Hy) as Hu.
  pose proof (get_world_after_update_channels slack st y (Agent.world_name ag))
    as Hw0.
  pose proof (λ a c', ledger_update_channels slack st y a c') as Hl0.
  assert (call_tool slack now (Send_direct_message y r m) st
          = (_update_agent_read_messages y c [sent];;
             mret (PResponse (Slack.send_messsage slack y m c)))
              (update_channels slack y st).2) as Hrun.
  { cbn [call_tool]. unfold send_direct_message.
    unfold mbind at 1, M_bind at 1. rewrite (agent_exists_ok _ _ _ Hr).
    cbn [negb]. unfold mbind at 1, M_bind at 1.
    rewrite (agent_exists_ok _ _ _ Hy). cbn [negb].
    unfold mbind at 1, M_bind at 1. rewrite (get_agent_ok _ _ _ Hr).
    rewrite Ho. unfold mbind at 1, M_bind at 1. rewrite Hu.
    unfold mbind at 1, M_bind at 1.
    change ((Ok (), (update_channels slack y st).2).2)
      with ((update_channels slack y st).2).
    by rewrite (get_agent_ok _ _ _ Hy0). }
  subst st'. rewrite Hrun, then_ret_state.
  assert (∀ a c', ledger (_update_agent_read_messages y c [sent]
                            (update_channels slack y st).2).2 a c'
                  = if decide (a = y ∧ c' = c)
                    then ledger st y c
                         ++ filter (λ x, x ∉ ledger st y c) [sent]
                    else ledger st a c') as Hled.
  { intros a c'. rewrite (ledger_update _ _ _ _ _ a c' Hy0), !Hl0.
    apply decide_ext. split; by intros [-> ->]. }
  split_and!; [|  |done|].
  - intros He Hc. apply (then_ret_ok _ _ _ tt). rewrite Hw in Hw0.
    by apply (_update_agent_read_messages_returns _ y _ w c [sent] Hy0 Hw0).
  - rewrite Hled, decide_True by done. apply elem_of_recorded.
  - rewrite (get_agent_after_update _ _ _ _ _ Hy0). done.
Qed.

Lemma send_direct_message_recorded_witness :
  let slack := Scenario.backend (λ _, []) in
  let run := call_tool slack 7 (Send_direct_message "bob" "alice" "hi")
               Scenario.server0 in
  run.1 = Ok (PResponse "ok")
  ∧ ledger run.2 "bob" "D1"
    = [Message.mk "hi" "D1" "U_BOB" (Float 7) (Some "bob")]
  ∧ ledger run.2 "alice" "D1" = [].
Proof.
  cbv zeta.
  destruct (send_direct_message_recorded (Scenario.backend (λ _, [])) 7
              "bob" "alice" "hi" Scenario.server0 Scenario.bob Scenario.W
              Scenario.alice "D1" eq_refl eq_refl eq_refl eq_refl)
    as (Hok & _ & Hled & _).
  split_and!.
  - apply Hok; [by apply exportable_empty|].
    eexists. vm_compute. reflexivity.
  - rewrite Hled. reflexivity.
  - rewrite Hled. reflexivity.
Defined.

(** X6. [send_message_to_channel] tests the channel name against the
    sender's own channel list. A name that is not in it is answered with the
    guidance text and that list; nothing is sent, recorded or refreshed. The
    text is stated for channel names of ASCII characters. *)
Theorem send_message_to_channel_unknown slack now y name m st ag :
  Registry.get_agent (registry st) y = Some ag →
  name ∉ (Channel.name <$> Agent.channels ag) →
  ascii_names (Channel.name <$> Agent.channels ag) →
  call_tool slack now (Send_message_to_channel y name m) st
  = (Ok (PText ("Sorry this channel doesn't exist, you can create a new channel with the create_channel tool.Here is a list of all the channels you have access to: " +:+
                PyStr.repr_list (Channel.name <$> Agent.channels ag))),
     st).
Proof.
  intros Hy Hn _. cbn [call_tool]. unfold send_message_to_channel.
  unfold mbind at 1, M_bind at 1. rewrite (agent_exists_ok _ _ _ Hy).
  cbn [negb]. unfold mbind at 1, M_bind at 1. rewrite (get_agent_ok _ _ _ Hy).
  by rewrite bool_decide_eq_true_2.
Qed.

Lemma send_message_to_channel_unknown_witness :
  call_tool (Scenario.backend (λ _, [])) 0
    (Send_message_to_channel "bob" "plans" "hi") Scenario.server1
  = (Ok (PText "Sorry this channel doesn't exist, you can create a new channel with the create_channel tool.Here is a list of all the channels you have access to: ['U_ALICE,U_BOB,U_CAROL', 'general']"),
     Scenario.server1).
Proof.
  rewrite (send_message_to_channel_unknown (Scenario.backend (λ _, [])) 0
             "bob" "plans" "hi" Scenario.server1 Scenario.bob1 eq_refl).
  - reflexivity.
  - vm_compute. intros H.
    repeat (apply elem_of_cons in H as [H|H]; [discriminate H|]).
    by apply not_elem_of_nil in H.
  - repeat (apply Forall_cons; split; [reflexivity|]). constructor.
Defined.

(** X7. When the name is in the sender's channel list and the registry
    knows the channel, [send_message_to_channel] has appended the message,
    with the sender's name (not the Slack id) as [user_id], to the sender's
    ledger for that channel and to no other ledger. When the export that
    follows the append goes through (the registry knows the channels of the
    sender's ledger by id), it then refreshes the sender's channel list and
    returns the backend's response. *)
Theorem send_message_to_channel_recorded slack now y name m st ag w ch :
  Registry.get_agent (registry st) y = Some ag →
  Registry.get_world (registry st) (Agent.world_name ag) = Some w →
  name ∈ (Channel.name <$> Agent.channels ag) →
  Registry.get_channel (registry st) name = Some ch →
  let c := Channel.slack_id ch in
  let sent := Message.mk m c y (Float now) (Some y) in
  let st' := (call_tool slack now (Send_message_to_channel y name m) st).2 in
  (exportable (registry st) ag →
   (call_tool slack now (Send_message_to_channel y name m) st).1
   = Ok (PResponse (Slack.send_messsage slack y m c))
   ∧ Agent.channels <$> Registry.get_agent (registry st') y
     = Some (update_channels_all slack (registry st) y))
  ∧ sent ∈ ledger st' y c
  ∧ (∀ a c', ledger st' a c'
             = if decide (a = y ∧ c' = c)
               then ledger st y c ++ filter (λ x, x ∉ ledger st y c) [sent]
               else ledger st a c').
Proof.
  intros Hy Hw Hn Hch c sent st'.
  assert (call_tool slack now (Send_message_to_channel y name m) st
          = (_update_agent_read_messages y c [sent];;
             update_channels slack y;;
             mret (PResponse (Slack.send_messsage slack y m c))) st) as Hrun.
  { cbn [call_tool]. unfold send_message_to_channel.
    unfold mbind at 1, M_bind at 1. rewrite (agent_exists_ok _ _ _ Hy).
    cbn [negb]. unfold mbind at 1, M_bind at 1.
    rewrite (get_agent_ok _ _ _ Hy).
    rewrite bool_decide_eq_false_2 by (by intros Hnot).
    unfold mbind at 1, M_bind at 1. by rewrite (get_channel_ok _ _ _ Hch). }
  pose proof (get_agent_after_update st y ag c [sent] Hy) as Hy1.
  pose proof (λ a c', ledger_update st y ag c [sent] a c' Hy) as Hl1.
  pose proof (_update_agent_read_messages_registry st y ag c [sent] Hy) as Hr1.
  pose proof (λ He, _update_agent_read_messages_returns st y ag w c [sent]
                      Hy Hw He (get_channel_from_id_registered _ _ _ Hch))
    as Hret.
  subst st'. rewrite Hrun.
  assert (∀ a c',
            ledger ((_update_agent_read_messages y c [sent];;
                     update_channels slack y;;
                     mret (PResponse (Slack.send_messsage slack y m c))) st).2
                   a c'
            = if decide (a = y ∧ c' = c)
              then ledger st y c ++ filter (λ x, x ∉ ledger st y c) [sent]
              else ledger st a c') as Hled.
  { intros a c'.
    trans (ledger (_update_agent_read_messages y c [sent] st).2 a c').
    - unfold mbind at 1, M_bind at 1.
      destruct (_update_agent_read_messages y c [sent] st) as [[[]|e] st1];
        [|done].
      rewrite then_ret_state. apply ledger_update_channels.
    - rewrite Hl1. apply decide_ext. split; by intros [-> ->]. }
  split_and!; [| |done].
  - intros He. specialize (Hret He). unfold mbind at 1 3, M_bind at 1 3.
    destruct (_update_agent_read_messages y c [sent] st) as [[[]|e] st1];
      [|done].
    simpl in Hy1, Hr1. rewrite then_ret_state.
    pose proof (update_channels_returns slack st1 y _ Hy1) as Hu. split.
    + apply (then_ret_ok _ _ _ tt). by rewrite Hu.
    + rewrite (ledger_after_update_channels _ _ _ _ Hy1). simpl. f_equal.
      rewrite Hr1. apply update_channels_all_set_agent.
  - rewrite Hled, decide_True by done. apply elem_of_recorded.
Qed.

Lemma send_message_to_channel_recorded_witness :
  let slack := Scenario.backend (λ _, []) in
  let run := call_tool slack 7 (Send_message_to_channel "alice" "general" "hi")
               Scenario.server1 in
  run.1 = Ok (PResponse "ok")
  ∧ ledger run.2 "alice" "C1"
    = [Message.mk "hi" "C1" "alice" (Float 7) (Some "alice")]
  ∧ ledger run.2 "bob" "C1" = [].
Proof.
  cbv zeta.
  assert ("general" ∈ Channel.name <$> Agent.channels Scenario.alice1) as Hn
    by (vm_compute; apply list_elem_of_further, list_elem_of_here).
  destruct (send_message_to_channel_recorded (Scenario.backend (λ _, [])) 7
              "alice" "general" "hi" Scenario.server1 Scenario.alice1
              Scenario.W Scenario.general eq_refl eq_refl Hn eq_refl)
    as (Hok & _ & Hled).
  split_and!.
  - by apply Hok, exportable_empty.
  - rewrite Hled. reflexivity.
  - rewrite Hled. reflexivity.
Defined.

(** X8. When the backend refuses to open the conversation,
    [send_direct_message] between two registered agents raises
    [HTTPException(400, "Failed to open conversation")] before anything is
    sent, refreshed or recorded: the state is as before. *)
Theorem send_direct_message_open_fails slack now y r m st ag rag :
  Registry.get_agent (registry st) y = Some ag →
  Registry.get_agent (registry st) r = Some rag →
  Slack.open_conversation slack y [Agent.slack_id rag] = None →
  call_tool slack now (Send_direct_message y r m) st
  = (Raise (HTTPException 400 "Failed to open conversation"), st).
Proof.
  intros Hy Hr Ho. cbn [call_tool]. unfold send_direct_message.
  unfold mbind at 1, M_bind at 1. rewrite (agent_exists_ok _ _ _ Hr).
  cbn [negb]. unfold mbind at 1, M_bind at 1.
  rewrite (agent_exists_ok _ _ _ Hy). cbn [negb].
  unfold mbind at 1, M_bind at 1. rewrite (get_agent_ok _ _ _ Hr).
  by rewrite Ho.
Qed.

Lemma send_direct_message_open_fails_witness :
  let slack :=
    Slack.mk (λ _, []) (λ _, []) (λ _ _, []) (λ _ _, Slack.mkRead [] None)
             (λ _ _, None) (λ _ _ _, "ok") (λ _ _, "C9") (λ _ _ _, "ok")
             (λ _ _ _, []) in
  call_tool slack 0 (Send_direct_message "bob" "alice" "hi") Scenario.server0
  = (Raise (HTTPException 400 "Failed to open conversation"), Scenario.server0).
Proof.
  cbv zeta.
  by apply (send_direct_message_open_fails _ 0 "bob" "alice" "hi"
              Scenario.server0 Scenario.bob Scenario.alice).
Defined.

Lemma get_human_ok st h hu :
  Registry.get_human (registry st) h = Some hu → get_human h st = (Ok hu, st).
Proof. intros H. unfold get_human. run_monad. by rewrite H. Qed.

Lemma get_human_known r h hu :
  Registry.get_human r h = Some hu → h ∈ Registry.get_human_names r.
Proof.
  unfold Registry.get_human, Registry.get_human_names.
  intros [Hin Hn%bool_decide_eq_true]%find_some. subst h.
  apply list_elem_of_fmap. exists hu. split; [done|].
  by apply list_elem_of_In.
Qed.

(** X9. [send_message_to_human] from a registered agent to a registered
    human. When the backend refuses the conversation the call raises
    [HTTPException(400, "Failed to open conversation")] and the state is as
    before. Otherwise it has appended the message, with the sender's Slack
    id as [user_id], to the sender's ledger for the conversation and to no
    other ledger, and, unlike the two other sends, has left the sender's
    channel list as it was; it returns the backend's response when the
    export that follows the append goes through, that is when the registry
    knows the conversation and the channels of the sender's ledger by id. *)
Theorem send_message_to_human_known slack now y h m st ag w hu :
  Registry.get_agent (registry st) y = Some ag →
  Registry.get_world (registry st) (Agent.world_name ag) = Some w →
  Registry.get_human (registry st) h = Some hu →
  let run := call_tool slack now (Send_message_to_human y h m) st in
  match Slack.open_conversation slack y [Human.slack_member_id hu] with
  | None => run = (Raise (HTTPException 400 "Failed to open conversation"), st)
  | Some c =>
      let sent := Message.mk m c (Agent.slack_id ag) (Float now) (Some y) in
      (exportable (registry st) ag →
       is_Some (Registry.get_channel_from_id (registry st) c) →
       run.1 = Ok (PResponse (Slack.send_messsage slack y m c)))
      ∧ (∀ a c', ledger run.2 a c'
                 = if decide (a = y ∧ c' = c)
                   then ledger st y c ++ filter (λ x, x ∉ ledger st y c) [sent]
                   else ledger st a c')
      ∧ Agent.channels <$> Registry.get_agent (registry run.2) y
        = Some (Agent.channels ag)
  end.
Proof.
  intros Hy Hw Hh run.
  assert (run = (if bool_decide (h ∉ Registry.get_human_names (registry st))
                 then PText <$> return_human_doesnt_exist_error h
                 else match Slack.open_conversation slack y
                              [Human.slack_member_id hu] with
                      | None =>
                          raise (HTTPException 400 "Failed to open conversation")
                      | Some c =>
                          _update_agent_read_messages y c
                            [Message.mk m c (Agent.slack_id ag) (Float now)
                                        (Some y)];;
                          mret (PResponse (Slack.send_messsage slack y m c))
                      end) st) as Hrun.
  { subst run. cbn [call_tool]. unfold send_message_to_human.
    unfold mbind at 1, M_bind at 1. rewrite (get_agent_ok _ _ _ Hy).
    unfold mbind at 1, M_bind at 1. rewrite (get_human_ok _ _ _ Hh).
    unfold mbind at 1, M_bind at 1. unfold get_registry at 1. done. }
  rewrite bool_decide_eq_false_2 in Hrun
    by (intros Hnot; apply Hnot; by eapply get_human_known).
  destruct (Slack.open_conversation slack y [Human.slack_member_id hu])
    as [c|]; [|done].
  intros sent. fold sent in Hrun. rewrite Hrun, then_ret_state.
  split_and!.
  - intros He Hc. apply (then_ret_ok _ _ _ tt).
    by apply (_update_agent_read_messages_returns st y ag w c [sent]).
  - intros a c'. rewrite (ledger_update _ _ _ _ _ a c' Hy).
    apply decide_ext. split; by intros [-> ->].
  - by rewrite (get_agent_after_update _ _ _ _ _ Hy).
Qed.

Lemma send_message_to_human_known_witness :
  let run := call_tool (Scenario.backend (λ _, [])) 7
               (Send_message_to_human "bob" "carol" "hi") Scenario.server1 in
  run.1 = Ok (PResponse "ok")
  ∧ ledger run.2 "bob" "D1"
    = [Message.mk "hi" "D1" "U_BOB" (Float 7) (Some "bob")]
  ∧ Agent.channels <$> Registry.get_agent (registry run.2) "bob"
    = Some [Scenario.dm1; Scenario.general].
Proof.
  cbv zeta.
  pose proof (send_message_to_human_known (Scenario.backend (λ _, [])) 7
                "bob" "carol" "hi" Scenario.server1 Scenario.bob1 Scenario.W
                Scenario.carol eq_refl eq_refl eq_refl) as H.
  cbv zeta in H.
  change (Slack.open_conversation (Scenario.backend (λ _, [])) "bob"
            [Human.slack_member_id Scenario.carol]) with (Some "D1") in H.
  destruct H as (H1 & H2 & H3). split_and!; [|  |exact H3].
  - apply H1; [by apply exportable_empty|]. eexists. vm_compute. reflexivity.
  - rewrite H2. reflexivity.
Defined.

(** ** The sender's own message *)







(** bob sends "hi" to alice and then polls: the backend's copy of his own
    message comes back as new, next to the copy the send recorded. *)
Example own_message_delivered_again :
  let hi := Slack.mkRaw "hi" "U_BOB" "1007.000000" in
  let slack := Scenario.backend (Scenario.only_in "D1" [hi]) in
  let sent := (call_tool slack 1007000000
                 (Send_direct_message "bob" "alice" "hi") Scenario.server0).2 in
  let polled := call_tool slack 1008000000 (Check_new_messages "bob") sent in
  polled.1
  = Ok (PNewMessages [[Message.mk "hi" "D1" "U_BOB" (Str "1007") (Some "bob")]])
  ∧ ledger polled.2 "bob" "D1"
    = [Message.mk "hi" "D1" "U_BOB" (Float 1007000000) (Some "bob");
       Message.mk "hi" "D1" "U_BOB" (Str "1007") (Some "bob")].
Proof. cbv zeta. split; vm_compute; reflexivity. Qed.

(** ** [read_dm] when there is nothing to read *)

Lemma read_dm_to_channel slack st y ag s sag t0 :
  Registry.get_agent (registry st) y = Some ag →
  Registry.get_agent (registry st) s = Some sag →
  Registry.get_world_starttime_of_agent (registry st) s = Some t0 →
  read_dm slack y s st
  = (channel_id ←
       or_raise (read_dm_channel slack y
                   (length (Registry.get_humans (registry st)) + 2)
                   (Agent.slack_id sag) (Agent.slack_id ag))
                (UnboundLocalError "channel_id");
     let response := Slack.read slack y channel_id in
     match Slack.error response with
     | Some (String c e) => mret (PText (String c e))
     | _ =>
         kept ← filter_M (λ message, t ← timestamp_of (Slack.ts message);
                                     mret (t0 <=? t))
                         (Slack.messages response);
         let messages := read_dm_message (registry st) channel_id <$> kept in
         _update_agent_read_messages y channel_id messages;;
         mret (PMessages messages)
     end) st.
Proof.
  intros Hag Hsag Ht0. unfold read_dm.
  unfold mbind at 1, M_bind at 1. rewrite (agent_exists_ok _ _ _ Hag).
  cbn [negb].
  unfold mbind at 1, M_bind at 1. rewrite (agent_exists_ok _ _ _ Hsag).
  cbn [negb].
  unfold mbind at 1, M_bind at 1. unfold get_registry at 1.
  unfold mbind at 1, M_bind at 1. rewrite (get_agent_ok _ _ _ Hag).
  unfold mbind at 1, M_bind at 1. rewrite Ht0. cbn [or_raise].
  unfold mret at 1, M_ret at 1.
  unfold mbind at 1, M_bind at 1. by rewrite (get_agent_ok _ _ _ Hsag).
Qed.

(** X10. [read_dm] between two registered agents looks for an ongoing DM
    that has exactly [len(humans) + 2] members, both agents among them. When
    the backend lists none, the loop ends with [channel_id] unbound and the
    call raises [UnboundLocalError]; nothing is read or recorded. *)
Theorem read_dm_no_conversation slack now y s st ag sag t0 :
  Registry.get_agent (registry st) y = Some ag →
  Registry.get_agent (registry st) s = Some sag →
  Registry.get_world_starttime_of_agent (registry st) s = Some t0 →
  (∀ id, id ∈ Slack.check_ongoing_dms slack y →
         let members := Slack.get_channel_members slack y id in
         length members ≠ (length (Registry.get_humans (registry st)) + 2)%nat
         ∨ Agent.slack_id sag ∉ members ∨ Agent.slack_id ag ∉ members) →
  call_tool slack now (Read_dm y s) st
  = (Raise (UnboundLocalError "channel_id"), st).
Proof.
  intros Hag Hsag Ht0 Hnone. cbn [call_tool].
  rewrite (read_dm_to_channel slack st y ag s sag t0 Hag Hsag Ht0).
  assert (read_dm_channel slack y
            (length (Registry.get_humans (registry st)) + 2)
            (Agent.slack_id sag) (Agent.slack_id ag) = None) as ->; [|done].
  unfold read_dm_channel.
  destruct (find _ _) as [id|] eqn:E; [|done].
  apply find_some in E as [Hin Ht]. apply list_elem_of_In in Hin.
  apply andb_prop in Ht as [Ht H3]. apply andb_prop in Ht as [H1 H2].
  apply bool_decide_eq_true in H1, H2, H3.
  destruct (Hnone id Hin) as [H|[H|H]]; by destruct H.
Qed.

Lemma read_dm_no_conversation_witness :
  call_tool (Scenario.backend (λ _, [])) 0 (Read_dm "bob" "dave")
    Scenario.server0
  = (Raise (UnboundLocalError "channel_id"), Scenario.server0).
Proof.
  apply (read_dm_no_conversation (Scenario.backend (λ _, [])) 0 "bob" "dave"
           Scenario.server0 Scenario.bob Scenario.dave
           (World.start_datetime Scenario.W2) eq_refl eq_refl eq_refl).
  intros id Hid. apply list_elem_of_singleton in Hid as ->.
  right; left. vm_compute. intros H.
  repeat (apply elem_of_cons in H as [H|H]; [discriminate H|]).
  by apply not_elem_of_nil in H.
Defined.

(** X11. When the backend answers the read of the conversation with an
    error, [read_dm] returns the error text as the result and records
    nothing, whatever messages came with it. *)
Theorem read_dm_backend_error slack now y s st ag sag t0 c e :
  Registry.get_agent (registry st) y = Some ag →
  Registry.get_agent (registry st) s = Some sag →
  Registry.get_world_starttime_of_agent (registry st) s = Some t0 →
  read_dm_channel slack y (length (Registry.get_humans (registry st)) + 2)
    (Agent.slack_id sag) (Agent.slack_id ag) = Some c →
  Slack.error (Slack.read slack y c) = Some e → e ≠ EmptyString →
  call_tool slack now (Read_dm y s) st = (Ok (PText e), st).
Proof.
  intros Hag Hsag Ht0 Hc He Hne. cbn [call_tool].
  rewrite (read_dm_to_channel slack st y ag s sag t0 Hag Hsag Ht0).
  rewrite Hc. cbn [or_raise]. unfold mbind at 1, M_bind at 1.
  unfold mret at 1, M_ret at 1. cbv zeta. rewrite He.
  by destruct e.
Qed.

Lemma read_dm_backend_error_witness :
  let slack :=
    Slack.mk (λ _, ["D1"]) (λ _, [])
             (λ _ _, ["U_ALICE"; "U_BOB"; "U_CAROL"])
             (λ _ _, Slack.mkRead [Scenario.hello] (Some "channel_not_found"))
             (λ _ _, None) (λ _ _ _, "ok") (λ _ _, "C9") (λ _ _ _, "ok")
             (λ _ _ _, []) in
  call_tool slack 0 (Read_dm "bob" "alice") Scenario.server0
  = (Ok (PText "channel_not_found"), Scenario.server0).
Proof.
  cbv zeta.
  match goal with
  | |- call_tool ?slack _ _ _ = _ =>
      by apply (read_dm_backend_error slack 0 "bob" "alice" Scenario.server0
                  Scenario.bob Scenario.alice (World.start_datetime Scenario.W)
                  "D1" "channel_not_found" eq_refl eq_refl eq_refl eq_refl
                  eq_refl)
  end.
Defined.

(** ** Reading twice *)

Lemma identity_names (l l' : list Agent.t) :
  identity <$> l' = identity <$> l →
  Agent.agent_name <$> l' = Agent.agent_name <$> l.
Proof.
  intros H.
  assert (∀ k : list Agent.t,
            Agent.agent_name <$> k = (λ i, i.1.1) <$> (identity <$> k)) as E
    by (intros k; by rewrite <- list_fmap_compose).
  by rewrite !E, H.
Qed.

Lemma same_identities_resolve_sender st st' user :
  same_identities st st' →
  resolve_sender (registry st') user = resolve_sender (registry st) user.
Proof.
  intros Hs. pose proof Hs as (_ & Ha & Hh & _). unfold resolve_sender.
  unfold Registry.get_all_agent_names. rewrite (identity_names _ _ Ha).
  rewrite (same_identities_name_from_id st st') by done.
  unfold Registry.get_human_name_from_id. by rewrite Hh.
Qed.

(** X12. [read_channel] does not filter what it returns by the ledger: a
    second read of the same channel, against the same backend, returns the
    same messages again. It does filter what it records: the second read
    adds nothing to any ledger. Stated for timestamps in Slack's notation
    and a registry that knows the channels of the agent's ledger by id, so
    that both reads return. *)
Theorem read_channel_twice slack now y name st ag w ch :
  Registry.get_agent (registry st) y = Some ag →
  Registry.get_world (registry st) (Agent.world_name ag) = Some w →
  Registry.get_channel (registry st) name = Some ch →
  exportable (registry st) ag →
  let response := Slack.read slack y (Channel.slack_id ch) in
  Slack.messages response ≠ [] →
  well_stamped (Slack.messages response) →
  let messages :=
    read_channel_message (registry st) (Channel.slack_id ch)
      <$> window (λ t, World.start_datetime w <? t) (Slack.messages response) in
  let first := call_tool slack now (Read_channel y name) st in
  let second := call_tool slack now (Read_channel y name) first.2 in
  first.1 = Ok (PMessages messages)
  ∧ second.1 = Ok (PMessages messages)
  ∧ ∀ a c, ledger second.2 a c = ledger first.2 a c.
Proof.
  intros Hy Hw Hch He response Hne Hts messages first second.
  set (c := Channel.slack_id ch) in *.
  assert (first = (Ok (PMessages messages),
                   (_update_agent_read_messages y c messages st).2)) as H1
    by exact (read_channel_ok slack st y ag w name ch Hy Hw Hch He Hne Hts).
  pose proof (exportable_after_update st y ag c messages Hy He
                (get_channel_from_id_registered _ _ _ Hch)) as He1.
  set (st1 := (_update_agent_read_messages y c messages st).2) in *.
  pose proof (same_identities_update_agent_read_messages y c messages st)
    as Hsame. fold st1 in Hsame.
  pose proof (get_agent_after_update st y ag c messages Hy) as Hy1.
  fold st1 in Hy1.
  assert (Registry.get_world (registry st1)
            (Agent.world_name (Agent.extend_read_messages ag c messages))
          = Some w) as Hw1.
  { unfold st1. by rewrite (get_world_after_update _ _ _ _ _ _ Hy). }
  assert (Registry.get_channel (registry st1) name = Some ch) as Hch1.
  { unfold st1. by rewrite (_update_agent_read_messages_registry _ _ _ _ _ Hy). }
  assert (read_channel_message (registry st1) c
            <$> window (λ t, World.start_datetime w <? t)
                       (Slack.messages response) = messages) as Hm.
  { apply list_fmap_ext. intros _ m _. unfold read_channel_message.
    by rewrite (same_identities_resolve_sender st st1). }
  assert (second = (Ok (PMessages messages),
                    (_update_agent_read_messages y c messages st1).2)) as H2.
  { subst second. rewrite H1. cbn [snd call_tool].
    rewrite (read_channel_ok slack st1 y _ w name ch Hy1 Hw1 Hch1 He1 Hne
               Hts).
    fold c response. by rewrite Hm. }
  rewrite H1, H2. cbn [fst snd]. split_and!; [done..|].
  intros a c'. rewrite (ledger_update _ _ _ _ _ a c' Hy1).
  destruct (decide (y = a ∧ c = c')) as [[<- <-]|]; [|done].
  assert (ledger st1 y c
          = ledger st y c ++ filter (λ m, m ∉ ledger st y c) messages) as Hl.
  { unfold st1. rewrite (ledger_update _ _ _ _ _ y c Hy).
    by rewrite decide_True. }
  by rewrite Hl, delta_after_record, app_nil_r.
Qed.

Lemma read_channel_twice_witness :
  let slack := Scenario.backend (Scenario.only_in "C1" [Scenario.hello]) in
  let first := call_tool slack 0 (Read_channel "bob" "general")
                 Scenario.server1 in
  let second := call_tool slack 0 (Read_channel "bob" "general") first.2 in
  second.1 = first.1 ∧ ledger second.2 "bob" "C1" = ledger first.2 "bob" "C1".
Proof.
  cbv zeta.
  assert (well_stamped [Scenario.hello]) as Hts
    by (apply Forall_cons; split; [reflexivity|constructor]).
  assert (exportable (registry Scenario.server1) Scenario.bob1) as He
    by (by apply exportable_empty).
  destruct (read_channel_twice
              (Scenario.backend (Scenario.only_in "C1" [Scenario.hello])) 0
              "bob" "general" Scenario.server1 Scenario.bob1 Scenario.W
              Scenario.general eq_refl eq_refl eq_refl He
              ltac:(discriminate) Hts) as (H1 & H2 & H3).
  split; [by rewrite H1, H2|apply H3].
Defined.

(** ** What a poll delivers *)

Lemma elem_of_concat {A} (x : A) (ls : list (list A)) :
  x ∈ concat ls ↔ ∃ l, l ∈ ls ∧ x ∈ l.
Proof.
  rewrite list_elem_of_In, in_concat. split.
  - intros (l & Hl & Hx). exists l. by rewrite !list_elem_of_In.
  - intros (l & Hl & Hx). exists l. by rewrite <- !list_elem_of_In.
Qed.

Lemma candidate_channel slack r a start c m :
  m ∈ check_new_messages_candidates slack r a start c →
  Message.channel_id m = c.
Proof.
  unfold check_new_messages_candidates.
  by intros (raw & -> & _)%list_elem_of_fmap.
Qed.

(** X13. One [check_new_messages] of a registered agent, against a backend
    whose timestamps are in Slack's notation, when every export of the
    ledger goes through (with the refreshed channel list the registry knows
    the channels of the ledger by id). What it delivers and what it records
    are the same messages: every delivered message belongs to a channel that
    lists the agent as a member, was not in the agent's ledger for that
    channel, and is in it afterwards; and every message in a ledger of the
    agent afterwards was there before or has just been delivered. *)
Theorem check_new_messages_delivers_what_it_records slack now st a ag w :
  Registry.get_agent (registry st) a = Some ag →
  Registry.get_world (registry st) (Agent.world_name ag) = Some w →
  (∀ c, c ∈ check_new_messages_channels slack a (Agent.slack_id ag)
              (update_channels_all slack (registry st) a) →
        well_stamped (Slack.messages (Slack.read slack a c))) →
  exportable (registry (update_channels slack a st).2) ag →
  let run := call_tool slack now (Check_new_messages a) st in
  ∃ delivered,
    run.1 = Ok (PNewMessages delivered)
    ∧ (∀ m, m ∈ concat delivered →
            Agent.slack_id ag
              ∈ Slack.get_channel_members slack a (Message.channel_id m)
            ∧ (m ∉ ledger st a (Message.channel_id m))
            ∧ m ∈ ledger run.2 a (Message.channel_id m))
    ∧ (∀ c m, m ∈ ledger run.2 a c →
              m ∈ ledger st a c ∨ m ∈ concat delivered).
Proof.
  intros Hag Hw Hts He run. subst run. cbn [call_tool].
  destruct (check_new_messages_ok slack st a ag w Hag Hw Hts He)
    as (st' & Hrun & _ & Hled & _).
  rewrite Hrun. cbn [fst snd].
  set (ids := check_new_messages_channels slack a (Agent.slack_id ag)
                (update_channels_all slack (registry st) a)) in *.
  set (cands := check_new_messages_candidates slack (registry st) a
                  (World.start_datetime w)) in *.
  set (fresh := filter (λ c, cands c ≠ []) ids) in *.
  eexists. split; [done|]. split.
  - intros m (l & Hl & Hm)%elem_of_concat.
    apply list_elem_of_fmap in Hl as (c & -> & Hc).
    apply list_elem_of_filter in Hm as [Hnew Hm].
    rewrite (candidate_channel _ _ _ _ _ _ Hm).
    split_and!; [|done|].
    + apply list_elem_of_filter in Hc as [_ Hc]. unfold ids in Hc.
      unfold check_new_messages_channels in Hc.
      by apply list_elem_of_filter in Hc as [Hmem _].
    + rewrite Hled, decide_True by done. apply elem_of_app. right.
      by apply list_elem_of_filter.
  - intros c m Hm. rewrite Hled in Hm.
    destruct (decide (c ∈ fresh)) as [Hc|]; [|by left].
    apply elem_of_app in Hm as [Hm|Hm]; [by left|right].
    apply elem_of_concat. eexists. split; [|exact Hm].
    apply list_elem_of_fmap. by exists c.
Qed.

Lemma check_new_messages_delivers_what_it_records_witness :
  let slack := Scenario.backend (Scenario.only_in "D1" [Scenario.hello]) in
  let run := call_tool slack 0 (Check_new_messages "bob") Scenario.server0 in
  ∃ delivered,
    run.1 = Ok (PNewMessages delivered)
    ∧ ∀ c m, m ∈ ledger run.2 "bob" c →
             m ∈ ledger Scenario.server0 "bob" c ∨ m ∈ concat delivered.
Proof.
  cbv zeta.
  destruct (check_new_messages_delivers_what_it_records
              (Scenario.backend (Scenario.only_in "D1" [Scenario.hello])) 0
              Scenario.server0 "bob" Scenario.bob Scenario.W eq_refl eq_refl)
    as (delivered & H1 & _ & H3).
  - intros c Hc. vm_compute in Hc.
    apply elem_of_cons in Hc as [->|Hc];
      [apply Forall_cons; split; [reflexivity|constructor]|].
    apply elem_of_cons in Hc as [->|Hc]; [constructor|].
    exfalso. exact (proj1 (elem_of_nil _) Hc).
  - by apply exportable_empty.
  - exists delivered. by split.
Defined.



(** ** What [update_channels] leaves in the channel list *)

Lemma dm_walk_ids slack r a dms : ∀ acc id,
  id ∈ (foldl (update_channels_dm slack r a) acc dms).2
  ↔ id ∈ acc.2 ∨ id ∈ dms.
Proof.
  induction dms as [|d dms IH]; intros acc id; simpl.
  - rewrite elem_of_nil. tauto.
  - rewrite IH, elem_of_cons. unfold update_channels_dm.
    case_decide as Hd; simpl.
    + split; [tauto|]. intros [?|[->|?]]; auto.
    + rewrite elem_of_union, elem_of_singleton. tauto.
Qed.

Lemma named_walk_ids channels : ∀ acc id,
  id ∈ (foldl update_channels_named acc channels).2
  ↔ id ∈ acc.2 ∨ id ∈ channels.*1.
Proof.
  induction channels as [|x l IH]; intros acc id; simpl.
  - rewrite elem_of_nil. tauto.
  - rewrite IH, elem_of_cons. unfold update_channels_named.
    case_decide as Hd; simpl.
    + split; [tauto|]. intros [?|[->|?]]; auto.
    + rewrite elem_of_union, elem_of_singleton. tauto.
Qed.

Lemma named_walk_records (P : Channel.t → Prop)
    (listing channels : list (string * string)) : ∀ acc,
  (∀ x, x ∈ channels → x ∈ listing) →
  (∀ ch, ch ∈ acc.1 →
         P ch ∨ (Channel.slack_id ch, Channel.name ch) ∈ listing) →
  ∀ ch, ch ∈ (foldl update_channels_named acc channels).1 →
        P ch ∨ (Channel.slack_id ch, Channel.name ch) ∈ listing.
Proof.
  induction channels as [|x l IH]; intros acc Hsub Hacc; simpl; [done|].
  apply IH.
  - intros x' Hx'. apply Hsub. by right.
  - unfold update_channels_named. case_decide; simpl; [done|].
    intros ch [?| ->%list_elem_of_singleton]%elem_of_app; [auto|].
    right. simpl. rewrite <- surjective_pairing. apply Hsub. by left.
Qed.

(** X15. [update_channels] rebuilds the agent's channel list from the two
    backend listings alone. Afterwards the ids in the list are exactly the
    ids of the ongoing DMs and of the listed channels, so a channel the
    backend no longer lists is gone; and every record whose id is not that
    of an ongoing DM carries an id and a name that the backend listed
    together. *)
Theorem update_channels_covers slack st a ag :
  Registry.get_agent (registry st) a = Some ag →
  ∃ l : list Channel.t,
    Agent.channels <$> Registry.get_agent (registry (update_channels slack a st).2) a
    = Some l
    ∧ (∀ id, id ∈ Channel.slack_id <$> l
             ↔ id ∈ Slack.check_ongoing_dms slack a
               ∨ id ∈ (Slack.list_channels slack a).*1)
    ∧ (∀ ch, ch ∈ l →
             Channel.slack_id ch ∉ Slack.check_ongoing_dms slack a →
             (Channel.slack_id ch, Channel.name ch)
               ∈ Slack.list_channels slack a).
Proof.
  intros H. exists (update_channels_all slack (registry st) a).
  split; [by rewrite (ledger_after_update_channels _ _ _ _ H)|].
  set (dms := Slack.check_ongoing_dms slack a).
  set (named := Slack.list_channels slack a).
  set (acc1 := foldl (update_channels_dm slack (registry st) a) ([], ∅) dms).
  assert (seen_ok acc1) as Hok1.
  { apply seen_ok_foldl; [|apply seen_ok_empty].
    intros acc x. apply seen_ok_dm. }
  assert (seen_ok (foldl update_channels_named acc1 named)) as Hok2.
  { apply seen_ok_foldl; [|done]. intros acc x. apply seen_ok_named. }
  change (update_channels_all slack (registry st) a)
    with (foldl update_channels_named acc1 named).1.
  split.
  - intros id. rewrite <- (proj2 Hok2 id), named_walk_ids.
    unfold acc1. rewrite dm_walk_ids. simpl. rewrite elem_of_empty. tauto.
  - intros ch Hch Hnot.
    destruct (named_walk_records (λ ch, Channel.slack_id ch ∈ dms) named named
                acc1) with (ch := ch) as [?|?]; [done| |done|done|done].
    intros ch' Hch'. left.
    assert (Channel.slack_id ch' ∈ acc1.2) as Hid.
    { apply (proj2 Hok1). by apply list_elem_of_fmap_2. }
    unfold acc1 in Hid. apply dm_walk_ids in Hid as [Hid|Hid]; [|done].
    by apply elem_of_empty in Hid.
Qed.

Lemma update_channels_covers_witness :
  let slack := Scenario.backend (λ _, []) in
  let stale := Agent.set_channels Scenario.bob [Channel.mk "C7" "old"] in
  let st := mkServer (Registry.set_agent Scenario.registry0 "bob" stale) ∅ in
  ∃ l : list Channel.t,
    Agent.channels <$> Registry.get_agent (registry (update_channels slack "bob" st).2) "bob"
    = Some l
    ∧ ("C7" ∉ Channel.slack_id <$> l).
Proof.
  cbv zeta.
  destruct (update_channels_covers (Scenario.backend (λ _, []))
              (mkServer (Registry.set_agent Scenario.registry0 "bob"
                           (Agent.set_channels Scenario.bob
                              [Channel.mk "C7" "old"])) ∅)
              "bob" (Agent.set_channels Scenario.bob [Channel.mk "C7" "old"])
              eq_refl) as (l & Hl & Hids & _).
  exists l. split; [exact Hl|].
  rewrite Hids. vm_compute. intros [H|H].
  - apply elem_of_cons in H as [H|H]; [discriminate H|].
    by apply not_elem_of_nil in H.
  - apply elem_of_cons in H as [H|H]; [discriminate H|].
    by apply not_elem_of_nil in H.
Defined.

(** ** [create_channel] *)

Lemma lower_ascii_idemp c :
  PyStr.lower_ascii (PyStr.lower_ascii c) = PyStr.lower_ascii c.
Proof. by destruct c as [[] [] [] [] [] [] [] []]. Qed.

Lemma lower_idemp s : PyStr.lower (PyStr.lower s) = PyStr.lower s.
Proof.
  induction s as [|c s IH]; [done|].
  cbn [PyStr.lower]. by rewrite lower_ascii_idemp, IH.
Qed.

(** X16. [create_channel] lower-cases the channel name before it does
    anything else: two requests whose names, of ASCII characters, differ
    only in the case of their letters are the same request, with the same
    result and the same state afterwards. *)
Theorem create_channel_ignores_case slack now y name name' st :
  PyStr.is_ascii name = true → PyStr.is_ascii name' = true →
  PyStr.lower name = PyStr.lower name' →
  call_tool slack now (Create_channel y name) st
  = call_tool slack now (Create_channel y name') st
  ∧ call_tool slack now (Create_channel y name) st
    = call_tool slack now (Create_channel y (PyStr.lower name)) st.
Proof.
  intros _ _ H. cbn [call_tool]. unfold create_channel. cbv zeta.
  by rewrite H, lower_idemp.
Qed.

Lemma create_channel_ignores_case_witness :
  call_tool (Scenario.backend (λ _, [])) 0 (Create_channel "bob" "Plans")
    Scenario.server0
  = call_tool (Scenario.backend (λ _, [])) 0 (Create_channel "bob" "pLANS")
      Scenario.server0.
Proof.
  by apply (create_channel_ignores_case (Scenario.backend (λ _, [])) 0 "bob"
              "Plans" "pLANS" Scenario.server0 eq_refl eq_refl eq_refl).
Defined.

(** X17. A [create_channel] whose [your_name] is not among the registered
    agent names is answered with the text that lists the possible names;
    the backend is not asked for a channel and the state is unchanged. The
    text is stated for agent names of ASCII characters. *)
Theorem create_channel_unknown_caller slack now y name st :
  y ∉ Registry.get_all_agent_names (registry st) →
  ascii_names (Registry.get_all_agent_names (registry st)) →
  call_tool slack now (Create_channel y name) st
  = (Ok (PText ("Your name is incorrect, here are possible variants for your name: " +:+
                PyStr.repr_list (Registry.get_all_agent_names (registry st)))),
     st).
Proof.
  intros H _. cbn [call_tool]. unfold create_channel. cbv zeta.
  unfold mbind, M_bind, get_registry. by rewrite bool_decide_eq_true_2.
Qed.

Lemma create_channel_unknown_caller_witness :
  call_tool (Scenario.backend (λ _, [])) 0 (Create_channel "zed" "plans")
    Scenario.server0
  = (Ok (PText "Your name is incorrect, here are possible variants for your name: ['alice', 'bob', 'dave']"),
     Scenario.server0).
Proof.
  rewrite (create_channel_unknown_caller (Scenario.backend (λ _, [])) 0 "zed"
             "plans" Scenario.server0); [reflexivity| |].
  - vm_compute. intros H.
    repeat (apply elem_of_cons in H as [H|H]; [discriminate H|]).
    by apply not_elem_of_nil in H.
  - repeat (apply Forall_cons; split; [reflexivity|]). constructor.
Defined.

(** ** The export routes *)

(** X18. [export_history] for a registered world, when every exported [ts]
    is in Slack's notation, returns the exported messages stamped at or
    after the world's start, channel by channel in the order of the export,
    and changes nothing on the server. *)
Theorem export_history_window slack world_name limit st w :
  Registry.get_world (registry st) world_name = Some w →
  let response :=
    Slack.export_history slack world_name (Channel.name <$> World.channels w)
                         limit in
  well_stamped (concat response.*2) →
  export_history slack world_name limit st
  = (Ok (window (λ t, World.start_datetime w <=? t) (concat response.*2)), st).
Proof.
  intros Hw response Hts. unfold export_history, or_bad_request.
  unfold mbind at 1, M_bind at 1. rewrite (get_world_ok _ _ _ Hw).
  cbv zeta. fold response. by rewrite filter_M_window.
Qed.

Lemma export_history_window_witness :
  let old := Slack.mkRaw "old" "U_ALICE" "999.999999" in
  export_history
    (Scenario.backend (Scenario.only_in "D1" [old; Scenario.at_start]))
    "W" 100 Scenario.server0
  = (Ok [Scenario.at_start], Scenario.server0).
Proof.
  cbv zeta.
  rewrite (export_history_window
             (Scenario.backend
                (Scenario.only_in "D1"
                   [Slack.mkRaw "old" "U_ALICE" "999.999999";
                    Scenario.at_start]))
             "W" 100 Scenario.server0 Scenario.W eq_refl).
  - reflexivity.
  - change (well_stamped [Slack.mkRaw "old" "U_ALICE" "999.999999";
                          Scenario.at_start]).
    apply Forall_cons. split; [by eexists|].
    apply Forall_cons. split; [by eexists|constructor].
Defined.

(** ** An export that fails *)


